(** * HTML-Table-Processor: the table cleaning pipeline of [Main.py]

    A shallow embedding of [title_extraction], [store_data], [clean_tables]
    and the two loops at the end of [src/Main.py], together with the part
    of pandas they rely on.

    Conventions.
    - Text is a [string] of code points below 256; [isspace] is Python's
      [str.isspace] on that range.
    - A cell of an object-dtype frame built from HTML text is a Python
      [str], [np.nan] or [None]; [None] is what [pd.DataFrame] pads ragged
      rows with (pandas before 3.0), and [str] renders the two differently.
    - A [DataFrame] is its column labels and its rows, each row carrying its
      index label, since [dropna] keeps labels and line 183 drops a row by
      label.
    - Python objects live in a heap and are named by references, so that
      updates in place ([inplace=True], assignment through [iloc]) and
      rebinding of the variable [df] are told apart.  Only the frames bound
      to a variable get a reference, not the temporaries of a chained
      expression.
    - Python exceptions are values of [exn]; a computation returns
      [Ok v] or [Raise e] together with the store it leaves.  [SystemError]
      stands for the use of a reference that names no object, which code
      that only uses the references it is given or has made never does.
    - The parsing of HTML (lines 30-44) and the listing of the folder are
      taken as given: a file is its name and the cell texts of its tables.
      What is printed is not modelled; the CSV file is the list of its
      lines, a header line or a record. *)

From Stdlib Require Import Ascii.
From stdpp Require Import base tactics option list strings.

(** ** Python strings *)

Module Py.

Definition isspace (a : ascii) : bool :=
  let n := nat_of_ascii a in
  ((9 <=? n) && (n <=? 13)) || ((28 <=? n) && (n <=? 32))
  || (n =? 133) || (n =? 160).

Fixpoint lstrip (s : string) : string :=
  match s with
  | EmptyString => EmptyString
  | String a s' => if isspace a then lstrip s' else s
  end.

Fixpoint rstrip (s : string) : string :=
  match s with
  | EmptyString => EmptyString
  | String a s' =>
      match rstrip s' with
      | EmptyString => if isspace a then EmptyString else String a EmptyString
      | t => String a t
      end
  end.

(** [s.strip()] *)
Definition strip (s : string) : string := rstrip (lstrip s).

(** [old in s] for a one-character [old] *)
Fixpoint contains (old : ascii) (s : string) : bool :=
  match s with
  | EmptyString => false
  | String a s' => Ascii.eqb a old || contains old s'
  end.

(** [s.replace(old, new)] for one-character [old] and [new] *)
Fixpoint replace (old new : ascii) (s : string) : string :=
  match s with
  | EmptyString => EmptyString
  | String a s' =>
      String (if Ascii.eqb a old then new else a) (replace old new s')
  end.

End Py.

(** ** Cells, labels and frames *)

Inductive cell : Type :=
  | Text (s : string)
  | NaN
  | PyNone.

Global Instance cell_eq_dec : EqDecision cell.
Proof. solve_decision. Defined.

(** [pd.isna] / [pd.notna] *)
Definition isna (c : cell) : bool :=
  match c with Text _ => false | NaN | PyNone => true end.

Definition notna (c : cell) : bool := negb (isna c).

(** [str(c)] *)
Definition str (c : cell) : string :=
  match c with
  | Text s => s
  | NaN => "nan"
  | PyNone => "None"
  end.

(** [c == s] for a Python string [s] *)
Definition cell_is (s : string) (c : cell) : bool :=
  match c with Text t => String.eqb t s | NaN | PyNone => false end.

(** A column label is a position of a [RangeIndex] or, once
    [df.columns = stored_columns] has run, a cell of the header row. *)
Inductive col_label : Type :=
  | Pos (n : nat)
  | Name (c : cell).

Global Instance col_label_eq_dec : EqDecision col_label.
Proof. solve_decision. Defined.

Record DataFrame : Type := mkFrame {
  columns : list col_label;
  rows : list (nat * list cell)
}.

Global Instance DataFrame_eq_dec : EqDecision DataFrame.
Proof. solve_decision. Defined.

(** Every row has one cell per column, as in any pandas frame. *)
Definition rectangular (df : DataFrame) : Prop :=
  Forall (λ r : nat * list cell, length r.2 = length (columns df)) (rows df).

(** A change of the values of a row that keeps its index label. *)
Definition on_values (f : list cell → list cell) (r : nat * list cell)
  : nat * list cell := (r.1, f r.2).

(** ** The pandas operations used by [Main.py] *)

Module pd.

(** [pd.DataFrame(table_data)] on a list of lists of strings (line 47):
    as many columns as the longest row, short rows padded with [None],
    [RangeIndex] on both axes. *)
Definition new_DataFrame (table_data : list (list string)) : DataFrame :=
  let m := max_list (length <$> table_data) in
  {| columns := Pos <$> seq 0 m;
     rows := imap (λ i (r : list string),
                     (i, (Text <$> r) ++ replicate (m - length r) PyNone))
                  table_data |}.

(** [df.astype(object).replace('', np.nan)] (line 133) *)
Definition replace_blank (df : DataFrame) : DataFrame :=
  {| columns := columns df;
     rows := on_values (fmap (λ c, if cell_is EmptyString c then NaN else c))
               <$> rows df |}.

(** The cells at the positions where [mask] holds. *)
Fixpoint select {A} (mask : list bool) (xs : list A) : list A :=
  match mask, xs with
  | b :: mask', x :: xs' => if b then x :: select mask' xs' else select mask' xs'
  | _, _ => []
  end.

(** Column [j] holds a value in some row. *)
Definition column_has_value (df : DataFrame) (j : nat) : bool :=
  existsb (λ r : nat * list cell,
             match r.2 !! j with Some c => notna c | None => false end)
          (rows df).

(** [df.dropna(axis=1, how="all")] (lines 135 and 166) *)
Definition dropna_columns (df : DataFrame) : DataFrame :=
  let mask := column_has_value df <$> seq 0 (length (columns df)) in
  {| columns := select mask (columns df);
     rows := on_values (select mask) <$> rows df |}.

(** [df.dropna(axis=0, how="all")] (line 137) *)
Definition dropna_rows (df : DataFrame) : DataFrame :=
  {| columns := columns df;
     rows := filter (λ r : nat * list cell, existsb notna r.2 = true) (rows df) |}.

(** [df.reset_index(drop=True)] *)
Definition reset_index (df : DataFrame) : DataFrame :=
  {| columns := columns df; rows := imap (λ i (r : nat * list cell), (i, r.2)) (rows df) |}.

(** [df.iloc[1:]] *)
Definition iloc_from_1 (df : DataFrame) : DataFrame :=
  {| columns := columns df; rows := tail (rows df) |}.

(** [df.apply(f, axis=1)] for an [f] that returns a [pd.Series] with as
    many values as the row has: a frame with an empty axis is copied as it
    is, otherwise the rows are mapped and the columns renumbered. *)
Definition apply_rows (f : list cell → list cell) (df : DataFrame) : DataFrame :=
  match rows df, columns df with
  | [], _ | _, [] => df
  | _, _ =>
      {| columns := Pos <$> seq 0 (length (columns df));
         rows := on_values f <$> rows df |}
  end.

(** [row.dropna().tolist()] *)
Definition dropna_tolist (row : list cell) : list cell :=
  filter (λ c, notna c = true) row.

(** [row.isna().sum()] *)
Definition isna_sum (row : list cell) : nat :=
  length (filter (λ c, isna c = true) row).

End pd.

(** ** Exceptions and results *)

Inductive exn : Type :=
  | IndexError
  | KeyError
  | ValueError
  | TypeError
  | AttributeError
  | UnboundLocalError
  | SystemError.

Inductive outcome (A : Type) : Type :=
  | Ok (a : A)
  | Raise (e : exn).
Arguments Ok {A} a.
Arguments Raise {A} e.

Global Instance outcome_ret : MRet outcome := λ A, Ok.
Global Instance outcome_bind : MBind outcome := λ A B f m,
  match m with Ok a => f a | Raise e => Raise e end.
Global Instance outcome_fmap : FMap outcome := λ A B f m,
  match m with Ok a => Ok (f a) | Raise e => Raise e end.

(** The value of a local variable that may not have been assigned. *)
Definition local {A} (x : option A) : outcome A :=
  match x with Some a => Ok a | None => Raise UnboundLocalError end.

(** ** Indexing and assignment on frames *)

Module iloc.

(** [df.iloc[i]] *)
Definition row (df : DataFrame) (i : nat) : outcome (list cell) :=
  match rows df !! i with
  | Some r => Ok r.2
  | None => Raise IndexError
  end.

(** [df.iloc[i, j]] *)
Definition get (df : DataFrame) (i j : nat) : outcome cell :=
  match rows df !! i with
  | Some r => match r.2 !! j with Some c => Ok c | None => Raise IndexError end
  | None => Raise IndexError
  end.

(** [df.iloc[i, j] = c] *)
Definition set (df : DataFrame) (i j : nat) (c : cell) : outcome DataFrame :=
  match rows df !! i with
  | Some r =>
      if decide (j < length r.2)
      then Ok {| columns := columns df;
                 rows := <[i := on_values (λ cs, <[j := c]> cs) r]> (rows df) |}
      else Raise IndexError
  | None => Raise IndexError
  end.

(** [df.iloc[i] = values] for a Python list [values] *)
Definition set_row (df : DataFrame) (i : nat) (values : list cell)
  : outcome DataFrame :=
  match rows df !! i with
  | Some r =>
      if decide (length values = length (columns df))
      then Ok {| columns := columns df;
                 rows := <[i := on_values (λ _, values) r]> (rows df) |}
      else Raise ValueError
  | None => Raise IndexError
  end.

End iloc.

(** [df.drop(index=l)]: the row labelled [l] goes, [KeyError] if there is
    none. *)
Definition drop_index (df : DataFrame) (l : nat) : outcome DataFrame :=
  if decide (l ∈ fst <$> rows df)
  then Ok {| columns := columns df;
             rows := filter (λ r : nat * list cell, r.1 ≠ l) (rows df) |}
  else Raise KeyError.

(** [df.columns = names] *)
Definition set_columns (df : DataFrame) (names : list cell) : outcome DataFrame :=
  if decide (length names = length (columns df))
  then Ok {| columns := Name <$> names; rows := rows df |}
  else Raise ValueError.

(** [old in c] and [c.replace(old, new)] on a cell *)
Definition cell_contains (old : ascii) (c : cell) : outcome bool :=
  match c with
  | Text s => Ok (Py.contains old s)
  | NaN | PyNone => Raise TypeError
  end.

Definition cell_replace (old new : ascii) (c : cell) : outcome cell :=
  match c with
  | Text s => Ok (Text (Py.replace old new s))
  | NaN | PyNone => Raise AttributeError
  end.

(** ** The output file *)

Record Path : Type := mkPath { parent : string; name : string }.

Record TidyRecord : Type := mkRecord {
  filename : string;
  label : cell;
  tablename : string;
  column_name : col_label;
  value : cell
}.

Inductive csv_line : Type :=
  | HeaderLine (names : list string)
  | RecordLine (r : TidyRecord).

Inductive file_mode : Type := mode_w | mode_a.

(** The column names of [pd.DataFrame(structured_data)]: the keys of the
    dictionaries, none when the list is empty. *)
Definition result_columns (structured_data : list TidyRecord) : list string :=
  match structured_data with
  | [] => []
  | _ => ["filename"; "label"; "tablename"; "column name"; "value"]
  end.

(** [result_df.to_csv(output_file, index=False, mode=mode, header=header)]
    as a function of the previous content of the file. *)
Definition to_csv (result_df : list TidyRecord) (mode : file_mode)
    (header : bool) (old : list csv_line) : list csv_line :=
  (match mode with mode_w => [] | mode_a => old end)
  ++ (if header then [HeaderLine (result_columns result_df)] else [])
  ++ (RecordLine <$> result_df).

(** ** The store: Python objects and files *)

Definition ref : Type := nat.

Record store : Type := mkStore {
  heap : list DataFrame;
  files : list (string * list csv_line)
}.

(** The content of a file, empty when it does not exist. *)
Fixpoint read_file (fs : list (string * list csv_line)) (f : string)
  : list csv_line :=
  match fs with
  | [] => []
  | (g, ls) :: fs' => if String.eqb g f then ls else read_file fs' f
  end.

Fixpoint write_file (fs : list (string * list csv_line)) (f : string)
    (ls : list csv_line) : list (string * list csv_line) :=
  match fs with
  | [] => [(f, ls)]
  | (g, old) :: fs' =>
      if String.eqb g f then (g, ls) :: fs' else (g, old) :: write_file fs' f ls
  end.

Definition M (A : Type) : Type := store → outcome A * store.

Global Instance M_ret : MRet M := λ A a st, (Ok a, st).
Global Instance M_bind : MBind M := λ A B f m st,
  match m st with
  | (Ok a, st') => f a st'
  | (Raise e, st') => (Raise e, st')
  end.

Definition lift {A} (o : outcome A) : M A := λ st, (o, st).

(** A new object. *)
Definition new (v : DataFrame) : M ref := λ st,
  (Ok (length (heap st)), {| heap := heap st ++ [v]; files := files st |}).

(** The object behind a reference. *)
Definition deref (r : ref) : M DataFrame := λ st,
  match heap st !! r with
  | Some v => (Ok v, st)
  | None => (Raise SystemError, st)
  end.

(** An update of the object in place. *)
Definition assign (r : ref) (v : DataFrame) : M unit := λ st,
  (Ok tt, {| heap := <[r := v]> (heap st); files := files st |}).

(** An expression of [df] that reads it. *)
Definition reads {A} (r : ref) (f : DataFrame → outcome A) : M A :=
  v ← deref r; lift (f v).

(** An expression of [df] that returns a new frame. *)
Definition fresh (r : ref) (f : DataFrame → outcome DataFrame) : M ref :=
  v ← deref r; v' ← lift (f v); new v'.

(** A method of [df] called with [inplace=True], or an assignment through
    [iloc]. *)
Definition inplace (r : ref) (f : DataFrame → outcome DataFrame) : M unit :=
  v ← deref r; v' ← lift (f v); assign r v'.

Definition update_file (f : string) (g : list csv_line → list csv_line) : M unit :=
  λ st, (Ok tt, {| heap := heap st;
                   files := write_file (files st) f (g (read_file (files st) f)) |}).

Definition when (b : bool) (m : M unit) : M unit := if b then m else mret tt.

(** [for x in xs: body] *)
Fixpoint for_ {A} (xs : list A) (body : A → M unit) : M unit :=
  match xs with
  | [] => mret tt
  | x :: xs' => body x;; for_ xs' body
  end.

(** [for x in xs: acc = body(acc, x)] for a loop that builds a value *)
Fixpoint for_acc {A B} (xs : list A) (acc : B) (body : B → A → M B) : M B :=
  match xs with
  | [] => mret acc
  | x :: xs' => acc' ← body acc x; for_acc xs' acc' body
  end.

Definition range (n : nat) : list nat := seq 0 n.

(** ** [Main.py] *)

(** Lines 54-68. *)
Definition title_extraction (df : ref) : M string :=
  title ← reads df (λ v, iloc.get v 0 1);
  mret (if notna title && negb (cell_is EmptyString title)
        then str title else "No Title").

(** Lines 84-101: the records of one frame, row by row and then column by
    column. *)
Definition structured_rows (file_name title : string) (df : ref)
  : M (list TidyRecord) :=
  n ← reads df (λ v, Ok (length (rows v)));
  for_acc (range n) [] (λ structured_data row_idx,
    label ← reads df (λ v, iloc.get v row_idx 0);
    m ← reads df (λ v, Ok (length (columns v)));
    for_acc (seq 1 (m - 1)) structured_data (λ structured_data col_idx,
      column_name ← reads df (λ v,
        match columns v !! col_idx with
        | Some l => Ok l
        | None => Raise IndexError
        end);
      value ← reads df (λ v, iloc.get v row_idx col_idx);
      mret (structured_data ++
            [{| filename := file_name; label := label; tablename := title;
                column_name := column_name; value := value |}]))).

(** Lines 71-107. *)
Definition store_data (file_path : Path) (title : string) (df : ref)
    (output_file : string) (first_run : bool) : M unit :=
  let file_name := name file_path in
  structured_data ← structured_rows file_name title df;
  let result_df := structured_data in
  let mode := if first_run then mode_w else mode_a in
  update_file output_file (to_csv result_df mode first_run).

(** Lines 130-137: the copy, the blank cells, the empty columns and rows. *)
Definition drop_empty (df_origin : ref) : M ref :=
  df ← fresh df_origin Ok;
  df ← fresh df (λ v, Ok (pd.replace_blank v));
  inplace df (λ v, Ok (pd.dropna_columns v));;
  inplace df (λ v, Ok (pd.dropna_rows v));;
  mret df.

(** Lines 139-142. *)
Definition extract_title (df : ref) : M (string * ref) :=
  title ← title_extraction df;
  df ← (if bool_decide (title ≠ "No Title")
        then fresh df (λ v, Ok (pd.reset_index (pd.iloc_from_1 v)))
        else mret df);
  mret (title, df).

(** [str(c).strip() == s] *)
Definition stripped_is (s : string) (c : cell) : bool :=
  String.eqb (Py.strip (str c)) s.

(** Lines 148-160: the body of the two loops at row [i] and column [j]. *)
Definition merge_cell (df : ref) (i j : nat) : M unit :=
  c ← reads df (λ v, iloc.get v i j);
  when (cell_is EmptyString c) (inplace df (λ v, iloc.set v i j NaN));;
  c ← reads df (λ v, iloc.get v i j);
  when (stripped_is "$" c)
    (inplace df (λ v, iloc.set v i j NaN);;
     c1 ← reads df (λ v, iloc.get v i (j + 1));
     inplace df (λ v, iloc.set v i (j + 1) c1));;
  c1 ← reads df (λ v, iloc.get v i (j + 1));
  c1' ← reads df (λ v, iloc.get v i (j + 1));
  when (stripped_is "%" c1 || stripped_is "%)" c1')
    (c ← reads df (λ v, iloc.get v i j);
     inplace df (λ v, iloc.set v i j (Text (str c +:+ " %")));;
     inplace df (λ v, iloc.set v i (j + 1) NaN);;
     c ← reads df (λ v, iloc.get v i j);
     b ← lift (cell_contains "(" c);
     when b
       (c ← reads df (λ v, iloc.get v i j);
        c' ← lift (cell_replace "(" "-" c);
        inplace df (λ v, iloc.set v i j c'))).

(** Lines 146-160.  The result is the value the loop variable [i] is left
    with, which line 183 reads. *)
Definition merge_annotations (df : ref) : M (option nat) :=
  n ← reads df (λ v, Ok (length (rows v)));
  for_ (range n) (λ i,
    m ← reads df (λ v, Ok (length (columns v)));
    for_ (range (m - 1)) (λ j, merge_cell df i j));;
  mret (last (range n)).

(** The two lambdas of lines 164 and 190. *)
Definition shift_right (row : list cell) : list cell :=
  replicate (pd.isna_sum row) NaN ++ pd.dropna_tolist row.

Definition shift_left (row : list cell) : list cell :=
  pd.dropna_tolist row ++ replicate (pd.isna_sum row) NaN.

(** Lines 163-166. *)
Definition compact (df : ref) : M ref :=
  df ← fresh df (λ v, Ok (pd.apply_rows shift_right v));
  inplace df (λ v, Ok (pd.dropna_columns v));;
  mret df.

(** Lines 169-173: [count] and [non_nan_val] after the loop. *)
Definition count_values (values : list cell) : nat * option cell :=
  foldl (λ '(count, non_nan_val) val,
           if notna val then (count + 1, Some val) else (count, non_nan_val))
        (0, None) values.

(** Lines 168-185. *)
Definition single_value_repair (df : ref) (i : option nat) : M ref :=
  values ← reads df (λ v, iloc.row v 0);
  let '(count, non_nan_val) := count_values values in
  if count =? 1 then
    single_value ← lift (local non_nan_val);
    second_row_values ← reads df (λ v, pd.dropna_tolist <$> iloc.row v 1);
    let second_row_values := second_row_values ++ [single_value] in
    shape_1 ← reads df (λ v, Ok (length (columns v)));
    inplace df (λ v, iloc.set_row v 1
      (second_row_values ++ replicate (shape_1 - length second_row_values) NaN));;
    i ← lift (local i);
    inplace df (λ v, drop_index v i);;
    inplace df (λ v, Ok (pd.reset_index v));;
    fresh df (λ v, Ok (pd.reset_index (pd.iloc_from_1 v)))
  else mret df.

(** Lines 187-193. *)
Definition capture_header (df : ref) : M ref :=
  stored_columns ← reads df (λ v, iloc.row v 0);
  df ← fresh df (λ v, Ok (pd.apply_rows shift_left v));
  inplace df (λ v, set_columns v stored_columns);;
  fresh df (λ v, Ok (pd.reset_index (pd.iloc_from_1 v))).

(** Lines 130-193: everything [clean_tables] does before it calls
    [store_data], with the title and the frame it passes on. *)
Definition normalize (df_origin : ref) : M (string * ref) :=
  df ← drop_empty df_origin;
  '(title, df) ← extract_title df;
  i ← merge_annotations df;
  df ← compact df;
  df ← single_value_repair df i;
  df ← capture_header df;
  mret (title, df).

(** Lines 110-195. *)
Definition clean_tables (df_origin : ref) (file_path : Path) (first_run : bool)
  : M unit :=
  '(title, df) ← normalize df_origin;
  store_data file_path title df "final_result.csv" first_run.

(** Lines 37-51, after the HTML has been parsed: one frame per table of
    the file, appended to [all_tables]. *)
Definition extract_data (tables : list (list (list string))) (file_path : Path)
    (all_tables : list (ref * Path)) : M (list (ref * Path)) :=
  for_acc tables all_tables (λ all_tables table_data,
    df ← new (pd.new_DataFrame table_data);
    mret (all_tables ++ [(df, file_path)])).

(** Lines 214-219, for any function called in the place of
    [clean_tables]. *)
Fixpoint cleaning_loop (process : ref → Path → bool → M unit)
    (first_run : bool) (all_tables : list (ref * Path)) : M unit :=
  match all_tables with
  | [] => mret tt
  | table :: rest =>
      process table.1 table.2 first_run;;
      cleaning_loop process false rest
  end.

(** Lines 198-219: the script, given the tables of each HTML file of the
    folder. *)
Definition main (folder_path : string)
    (html_files : list (string * list (list (list string)))) : M unit :=
  all_tables ← for_acc html_files [] (λ all_tables file,
    let full_path := {| parent := folder_path; name := file.1 |} in
    extract_data file.2 full_path all_tables);
  cleaning_loop clean_tables true all_tables.

Definition empty_store : store := {| heap := []; files := [] |}.

(** ** The same steps as functions of the value of [df]

    [clean_tables] only ever works on objects it has created itself, so
    what it computes is a function of the value of [df_origin].  The
    functions below give that value step by step; the refinement lemmas
    further down relate them to the code above. *)

Module Val.

Definition title_extraction (v : DataFrame) : outcome string :=
  title ← iloc.get v 0 1;
  Ok (if notna title && negb (cell_is EmptyString title)
      then str title else "No Title").

Definition drop_empty (v : DataFrame) : DataFrame :=
  pd.dropna_rows (pd.dropna_columns (pd.replace_blank v)).

Definition extract_title (v : DataFrame) : outcome (string * DataFrame) :=
  title ← title_extraction v;
  Ok (title, if bool_decide (title ≠ "No Title")
             then pd.reset_index (pd.iloc_from_1 v) else v).

(** What [merge_cell] does to the row it works on. *)
Definition merge_pair (row : list cell) (j : nat) : list cell :=
  match row !! j, row !! (j + 1) with
  | Some c, Some c1 =>
      let c := if cell_is EmptyString c then NaN else c in
      let c := if stripped_is "$" c then NaN else c in
      if stripped_is "%" c1 || stripped_is "%)" c1
      then
        let t := str c +:+ " %" in
        let t := if Py.contains "(" t then Py.replace "(" "-" t else t in
        <[j + 1 := NaN]> (<[j := Text t]> row)
      else <[j := c]> row
  | _, _ => row
  end.

(** The inner loop on one row. *)
Definition merge_row (row : list cell) : list cell :=
  foldl merge_pair row (range (length row - 1)).

Definition merge_annotations (v : DataFrame) : DataFrame :=
  {| columns := columns v; rows := on_values merge_row <$> rows v |}.

Definition compact (v : DataFrame) : DataFrame :=
  pd.dropna_columns (pd.apply_rows shift_right v).

Definition single_value_repair (v : DataFrame) (i : option nat)
  : outcome DataFrame :=
  values ← iloc.row v 0;
  let '(count, non_nan_val) := count_values values in
  if count =? 1 then
    single_value ← local non_nan_val;
    second_row_values ← pd.dropna_tolist <$> iloc.row v 1;
    let second_row_values := second_row_values ++ [single_value] in
    let shape_1 := length (columns v) in
    v ← iloc.set_row v 1
      (second_row_values ++ replicate (shape_1 - length second_row_values) NaN);
    i ← local i;
    v ← drop_index v i;
    Ok (pd.reset_index (pd.iloc_from_1 (pd.reset_index v)))
  else Ok v.

Definition capture_header (v : DataFrame) : outcome DataFrame :=
  stored_columns ← iloc.row v 0;
  v ← set_columns (pd.apply_rows shift_left v) stored_columns;
  Ok (pd.reset_index (pd.iloc_from_1 v)).

Definition normalize (v : DataFrame) : outcome (string * DataFrame) :=
  '(title, v) ← extract_title (drop_empty v);
  let i := last (range (length (rows v))) in
  v ← single_value_repair (compact (merge_annotations v)) i;
  v ← capture_header v;
  Ok (title, v).

(** [for_acc] for a body that only reads. *)
Fixpoint for_acc {A B} (xs : list A) (acc : B) (body : B → A → outcome B)
  : outcome B :=
  match xs with
  | [] => Ok acc
  | x :: xs' => acc' ← body acc x; for_acc xs' acc' body
  end.

Definition structured_rows (file_name title : string) (v : DataFrame)
  : outcome (list TidyRecord) :=
  for_acc (range (length (rows v))) [] (λ structured_data row_idx,
    label ← iloc.get v row_idx 0;
    for_acc (seq 1 (length (columns v) - 1)) structured_data
      (λ structured_data col_idx,
        column_name ← match columns v !! col_idx with
                       | Some l => Ok l
                       | None => Raise IndexError
                       end;
        value ← iloc.get v row_idx col_idx;
        Ok (structured_data ++
            [{| filename := file_name; label := label; tablename := title;
                column_name := column_name; value := value |}]))).

(** The records [clean_tables] hands to [to_csv]. *)
Definition clean_tables (v : DataFrame) (file_path : Path)
  : outcome (list TidyRecord) :=
  '(title, v) ← normalize v;
  structured_rows (name file_path) title v.

End Val.

(** ** Notions used in the statements *)

(** The records among the lines of a file. *)
Definition records_of (ls : list csv_line) : list TidyRecord :=
  omap (λ l, match l with RecordLine r => Some r | HeaderLine _ => None end) ls.

(** The cell the percent rule of [merge_cell] finds at column [j]: line 149
    has cleared an empty string and line 152 a dollar sign. *)
Definition cleared (c : cell) : cell :=
  if cell_is EmptyString c then NaN
  else if stripped_is "$" c then NaN else c.

(** The test of line 155. *)
Definition percent_token (c : cell) : bool :=
  stripped_is "%" c || stripped_is "%)" c.

(** [True] for the first of [n] calls only. *)
Definition first_run_flags (n : nat) : list bool :=
  match n with
  | 0 => []
  | S k => true :: replicate k false
  end.

(** [None] only pads the end of a row. *)
Fixpoint none_trailing (row : list cell) : Prop :=
  match row with
  | [] => True
  | c :: row' => (c = PyNone → Forall (λ c', c' = PyNone) row') ∧ none_trailing row'
  end.

Definition rows_none_trailing (v : DataFrame) : Prop :=
  Forall (λ r : nat * list cell, none_trailing r.2) (rows v).

(** The single-value-row repair as the specification words it (step 7):
    row 1 becomes the merged row, the original row 0 is deleted and the rows
    re-indexed, then the new row 0 is dropped as well. *)
Module Spec.

Definition single_value_repair (v : DataFrame) : outcome DataFrame :=
  row_0 ← iloc.row v 0;
  match pd.dropna_tolist row_0 with
  | [single_value] =>
      row_1 ← iloc.row v 1;
      let merged := pd.dropna_tolist row_1 ++ [single_value] in
      v ← iloc.set_row v 1
            (merged ++ replicate (length (columns v) - length merged) NaN);
      let v := pd.reset_index (pd.iloc_from_1 v) in
      Ok (pd.reset_index (pd.iloc_from_1 v))
  | _ => Ok v
  end.

End Spec.

(** ** Inputs of the examples *)

Definition q1_report : list (list string) :=
  [[EmptyString; "Q1 Report"]; ["Revenue"; "$"; "100"]; ["Growth"; "12"; "%"]].

Definition units_table : list (list string) :=
  [[EmptyString; "T"]; ["U"]; ["a"; "1"]; ["x"; "b"; "2"]; ["y"; "c"; "3"]].

Definition blank_table : list (list string) :=
  [[EmptyString; EmptyString]; [EmptyString]].

Definition no_title_table : list (list string) :=
  [["a"; "No Title"]; ["b"; "c"]].

Definition one_column_table : list (list string) := [["a"]; ["b"]].

Definition decline_table : list (list string) :=
  [[EmptyString; "T"]; ["h"; "v"]; ["Decline"; "(5"; "%)"]].

Definition gap_table : list (list string) :=
  [[EmptyString; "T"]; ["x"; EmptyString; "%"]].

(** A title row and a header row, no data row: a table without records. *)
Definition header_only_table : list (list string) :=
  [[EmptyString; "T"]; ["h"; "v"]].

Definition five_columns : list string :=
  ["filename"; "label"; "tablename"; "column name"; "value"].

(** What the end-to-end scenario of the specification expects of the
    records of [q1_report]. *)
Definition q1_expected (records : list TidyRecord) : Prop :=
  ∃ r1 r2, records = [r1; r2]
    ∧ tablename r1 = "Q1 Report" ∧ tablename r2 = "Q1 Report"
    ∧ label r1 = Text "Revenue" ∧ label r2 = Text "Growth"
    ∧ value r1 = Text "100" ∧ value r2 = Text "12 %".

Definition q1_path : Path := {| parent := "reports"; name := "q1.html" |}.

(** [q1_report] when it reaches [store_data], and the one record it gives. *)
Definition q1_normalized : DataFrame :=
  {| columns := [Name (Text "Revenue"); Name (Text "100")];
     rows := [(0, [Text "Growth"; Text "12 %"])] |}.

Definition q1_record : TidyRecord :=
  {| filename := "q1.html"; label := Text "Growth"; tablename := "Q1 Report";
     column_name := Name (Text "100"); value := Text "12 %" |}.

(** [units_table] when it reaches line 168. *)
Definition units_compacted : DataFrame :=
  {| columns := [Pos 0; Pos 1; Pos 2];
     rows := [(0, [NaN; NaN; Text "U"]); (1, [NaN; Text "a"; Text "1"]);
              (2, [Text "x"; Text "b"; Text "2"]);
              (3, [Text "y"; Text "c"; Text "3"])] |}.

(** ** Ownership of the working frame *)

(** [clean_tables] was entered with heap [h0] and files [fs0]: the objects
    of [h0] are as they were and no file has been written. *)
Definition framed (h0 : list DataFrame) (fs0 : list (string * list csv_line))
    (st : store) : Prop :=
  h0 `prefix_of` heap st ∧ files st = fs0.

(** In addition [df] is an object made since, of value [v]. *)
Definition owns (h0 : list DataFrame) (fs0 : list (string * list csv_line))
    (st : store) (df : ref) (v : DataFrame) : Prop :=
  framed h0 fs0 st ∧ length h0 ≤ df ∧ heap st !! df = Some v.

(** [m] computes the value [p]: with the result related by [R] when [p]
    is a value, with the same exception otherwise, and in both cases
    leaving the store [framed]. *)
Definition refines {A B} (h0 : list DataFrame)
    (fs0 : list (string * list csv_line))
    (m : M A) (p : outcome B) (R : A → B → store → Prop) (st : store) : Prop :=
  match p with
  | Ok b => ∃ a st', m st = (Ok a, st') ∧ R a b st'
  | Raise e => ∃ st', m st = (Raise e, st') ∧ framed h0 fs0 st'
  end.

(** The frame [v] with row [i] replaced, and the store with the object
    [df] replaced. *)
Definition with_row (v : DataFrame) (i : nat) (r : nat * list cell) : DataFrame :=
  {| columns := columns v; rows := <[i := r]> (rows v) |}.

Definition upd (st : store) (df : ref) (v : DataFrame) : store :=
  {| heap := <[df := v]> (heap st); files := files st |}.

(** [store_data] has written [result_df] to [output_file], and that is all
    that has changed in the files. *)
Definition stored (h0 : list DataFrame) (fs0 : list (string * list csv_line))
    (output_file : string) (first_run : bool) (result_df : list TidyRecord)
    (st : store) : Prop :=
  h0 `prefix_of` heap st ∧
  files st = write_file fs0 output_file
               (to_csv result_df (if first_run then mode_w else mode_a)
                       first_run (read_file fs0 output_file)).

(** [m] leaves the first [n] objects of the heap as they are, and its
    result satisfies [P]. *)
Definition keeps (n : nat) {A} (P : A → Prop) (m : M A) : Prop :=
  ∀ st, n ≤ length (heap st) →
    take n (heap (m st).2) = take n (heap st)
    ∧ n ≤ length (heap (m st).2)
    ∧ ∀ a, (m st).1 = Ok a → P a.

(** ** Notions used in the further properties *)

(** A computation that leaves the store as it found it. *)
Definition readonly {A} (m : M A) : Prop := ∀ st, (m st).2 = st.

(** The index labels of a frame. *)
Definition labels (v : DataFrame) : list nat := fst <$> rows v.

(** The absent cells of a row come first and are all [np.nan]. *)
Definition right_aligned (row : list cell) : Prop :=
  ∃ k present,
    row = replicate k NaN ++ present ∧ Forall (λ c, notna c = true) present.

(** The records of one row as lines 89-101 build them: the first cell is
    the label, every later cell goes with the name of its column. *)
Definition records_of_row (file_name title : string) (cols : list col_label)
    (row : list cell) : list TidyRecord :=
  match row with
  | [] => []
  | label :: values =>
      (λ cv : col_label * cell,
         {| filename := file_name; label := label; tablename := title;
            column_name := cv.1; value := cv.2 |})
      <$> zip (tail cols) values
  end.

(** What one table yields when [clean_tables] runs on it alone, appending to
    an empty file. *)
Definition solo_records (st : store) (table : ref * Path) : list TidyRecord :=
  records_of
    (read_file
       (files (clean_tables table.1 table.2 false
                 {| heap := heap st; files := [] |}).2)
       "final_result.csv").

(* LEMMAS *)

(** * Proofs *)

(** ** The store operations *)

Lemma right_id_outcome {A} (p : outcome A) : p ≫= Ok = p.
Proof. by destruct p. Qed.

Lemma bind_run {A B} (m : M A) (k : A → M B) (st : store) :
  (m ≫= k) st =
  match m st with (Ok a, st') => k a st' | (Raise e, st') => (Raise e, st') end.
Proof. reflexivity. Qed.

Lemma reads_run {A} (r : ref) (f : DataFrame → outcome A) st v :
  heap st !! r = Some v → reads r f st = (f v, st).
Proof. intros H. unfold reads, deref. rewrite bind_run, H. reflexivity. Qed.

Lemma inplace_run (r : ref) f st v :
  heap st !! r = Some v →
  inplace r f st =
  match f v with
  | Ok v' => (Ok tt, {| heap := <[r := v']> (heap st); files := files st |})
  | Raise e => (Raise e, st)
  end.
Proof.
  intros H. unfold inplace, deref. rewrite bind_run, H.
  rewrite bind_run. unfold lift. by destruct (f v).
Qed.

Lemma fresh_run (r : ref) f st v :
  heap st !! r = Some v →
  fresh r f st =
  match f v with
  | Ok v' => (Ok (length (heap st)),
              {| heap := heap st ++ [v']; files := files st |})
  | Raise e => (Raise e, st)
  end.
Proof.
  intros H. unfold fresh, deref. rewrite bind_run, H.
  rewrite bind_run. unfold lift. by destruct (f v).
Qed.

Section Ownership.
Variable h0 : list DataFrame.
Variable fs0 : list (string * list csv_line).

Lemma owns_framed st df v : owns h0 fs0 st df v → framed h0 fs0 st.
Proof. by intros [? _]. Qed.

Lemma owns_lookup st df v : owns h0 fs0 st df v → heap st !! df = Some v.
Proof. by intros (_ & _ & ?). Qed.

Lemma owns_assign st df v v' :
  owns h0 fs0 st df v →
  owns h0 fs0 {| heap := <[df := v']> (heap st); files := files st |} df v'.
Proof.
  intros ([[k Hk] Hf] & Hle & Hl). repeat split; simpl; try done.
  - exists (<[df - length h0 := v']> k). rewrite Hk.
    by rewrite insert_app_r_alt.
  - apply list_lookup_insert_eq. by eapply lookup_lt_Some.
Qed.

Lemma framed_new st v' :
  framed h0 fs0 st →
  owns h0 fs0 {| heap := heap st ++ [v']; files := files st |}
       (length (heap st)) v'.
Proof.
  intros [[k Hk] Hf]. repeat split; simpl; try done.
  - exists (k ++ [v']). rewrite Hk. by rewrite <- (assoc (++)).
  - rewrite Hk, length_app. lia.
  - by rewrite lookup_app_r, Nat.sub_diag.
Qed.

Lemma refines_bind {A B A' B'} (m : M A) (p : outcome B) (k : A → M A')
    (pk : B → outcome B') R R' st :
  refines h0 fs0 m p R st →
  (∀ a b st', p = Ok b → R a b st' → refines h0 fs0 (k a) (pk b) R' st') →
  refines h0 fs0 (m ≫= k) (p ≫= pk) R' st.
Proof.
  intros Hm Hk. destruct p as [b|e]; simpl in *.
  - destruct Hm as (a & st' & E & HR). specialize (Hk a b st' eq_refl HR).
    unfold refines in *. rewrite bind_run, E. exact Hk.
  - destruct Hm as (st' & E & HR). exists st'. by rewrite bind_run, E.
Qed.

Lemma refines_ret {A B} (a : A) (b : B) (R : A → B → store → Prop) st :
  R a b st → refines h0 fs0 (mret a) (Ok b) R st.
Proof. intros. exists a, st. done. Qed.

Lemma refines_lift {A} (o : outcome A) st :
  framed h0 fs0 st →
  refines h0 fs0 (lift o) o (λ a b st', a = b ∧ st' = st) st.
Proof. intros. destruct o; simpl; eauto. Qed.

Lemma refines_reads {A} df (f : DataFrame → outcome A) st v :
  owns h0 fs0 st df v →
  refines h0 fs0 (reads df f) (f v) (λ a b st', a = b ∧ st' = st) st.
Proof.
  intros O. unfold refines. rewrite (reads_run _ _ _ v) by by eapply owns_lookup.
  destruct (f v); eauto using owns_framed.
Qed.

Lemma refines_inplace df f st v :
  owns h0 fs0 st df v →
  refines h0 fs0 (inplace df f) (f v) (λ _ v' st', owns h0 fs0 st' df v') st.
Proof.
  intros O. unfold refines. rewrite (inplace_run _ _ _ v) by by eapply owns_lookup.
  destruct (f v); eauto using owns_framed, owns_assign.
Qed.

Lemma refines_fresh r f st v :
  framed h0 fs0 st → heap st !! r = Some v →
  refines h0 fs0 (fresh r f) (f v) (λ df' v' st', owns h0 fs0 st' df' v') st.
Proof.
  intros F L. unfold refines. rewrite (fresh_run _ _ _ v) by done.
  destruct (f v); eauto using framed_new.
Qed.

End Ownership.



(** ** The merge loops *)

Lemma upd_id st df v : heap st !! df = Some v → upd st df v = st.
Proof. intros H. unfold upd. rewrite list_insert_id by done. by destruct st. Qed.

Lemma with_row_id v i r : rows v !! i = Some r → with_row v i r = v.
Proof. intros H. unfold with_row. rewrite list_insert_id by done. by destruct v. Qed.

Section Row.
Variables (st : store) (df : ref) (v : DataFrame) (i l : nat).
Hypothesis Hdf : df < length (heap st).
Hypothesis Hi : i < length (rows v).

(** Reading and writing a cell of row [i] of the object [df]. *)
Lemma get_at row k :
  reads df (λ v, iloc.get v i k) (upd st df (with_row v i (l, row))) =
  (match row !! k with Some c => Ok c | None => Raise IndexError end,
   upd st df (with_row v i (l, row))).
Proof.
  erewrite reads_run; [|apply list_lookup_insert_eq, Hdf].
  unfold iloc.get, with_row; simpl. by rewrite list_lookup_insert_eq.
Qed.

Lemma set_at row k c :
  inplace df (λ v, iloc.set v i k c) (upd st df (with_row v i (l, row))) =
  if decide (k < length row)
  then (Ok tt, upd st df (with_row v i (l, <[k := c]> row)))
  else (Raise IndexError, upd st df (with_row v i (l, row))).
Proof.
  erewrite inplace_run; [|apply list_lookup_insert_eq, Hdf].
  unfold iloc.set, with_row; simpl. rewrite list_lookup_insert_eq by done. simpl.
  case_decide; [|done]. unfold upd, with_row, on_values; simpl.
  by rewrite !list_insert_insert_eq.
Qed.

End Row.

Lemma when_run (b : bool) (m : M unit) st :
  when b m st = if b then m st else (Ok tt, st).
Proof. by destruct b. Qed.

Lemma replace_absent old new s :
  Py.contains old s = false → Py.replace old new s = s.
Proof.
  induction s as [|a s IH]; simpl; [done|].
  intros [Ha Hs]%orb_false_iff. by rewrite Ha, IH.
Qed.

Lemma lift_run {A} (o : outcome A) st : lift o st = (o, st).
Proof. done. Qed.

Lemma ret_run {A} (a : A) (st : store) : mret (M := M) a st = (Ok a, st).
Proof. done. Qed.

Lemma merge_cell_run st df v i j l row :
  heap st !! df = Some v → rows v !! i = Some (l, row) → j + 1 < length row →
  merge_cell df i j st =
  (Ok tt, upd st df (with_row v i (l, Val.merge_pair row j))).
Proof.
  intros Hdf Hi Hj.
  assert (Hdf' : df < length (heap st)) by by eapply lookup_lt_Some.
  assert (Hi' : i < length (rows v)) by by eapply lookup_lt_Some.
  destruct (lookup_lt_is_Some_2 row j) as [c Hc]; [lia|].
  destruct (lookup_lt_is_Some_2 row (j + 1)) as [c1 Hc1]; [lia|].
  rewrite <- (upd_id st df v) at 1 by done.
  rewrite <- (with_row_id v i (l, row)) at 1 by done.
  unfold merge_cell, Val.merge_pair. rewrite Hc, Hc1.
  cbv zeta.
  repeat first
    [ rewrite bind_run | rewrite when_run | rewrite lift_run | rewrite ret_run
    | rewrite get_at by done | rewrite set_at by done
    | rewrite decide_True by (rewrite ?length_insert; lia)
    | rewrite list_lookup_insert_eq by (rewrite ?length_insert; lia)
    | rewrite list_lookup_insert_ne by lia
    | rewrite Hc | rewrite Hc1
    | progress cbv beta iota
    | match goal with
      | |- context [cell_is EmptyString c] => destruct (cell_is EmptyString c) eqn:?
      | |- context [stripped_is "$" ?x] => destruct (stripped_is "$" x) eqn:?
      | |- context [stripped_is "%" ?x] => destruct (stripped_is "%" x) eqn:?
      | |- context [stripped_is "%)" ?x] => destruct (stripped_is "%)" x) eqn:?
      end
    | progress simpl orb
    | progress simpl cell_contains
    | progress simpl cell_replace
    | match goal with
      | |- context [Py.contains "(" ?x] => destruct (Py.contains "(" x) eqn:?
      end ].
  all: try congruence.
  all: do 4 f_equal; apply list_eq; intros k;
    (destruct (decide (k = j)) as [->|];
     [|destruct (decide (k = j + 1)) as [->|]]);
    repeat first
      [ rewrite list_lookup_insert_eq by (rewrite ?length_insert; lia)
      | rewrite list_lookup_insert_ne by lia ];
    first [congruence | reflexivity].
Qed.

Lemma upd_upd st df v v' : upd (upd st df v) df v' = upd st df v'.
Proof. unfold upd; simpl. by rewrite list_insert_insert_eq. Qed.

Lemma with_row_with_row v i r r' :
  with_row (with_row v i r) i r' = with_row v i r'.
Proof. unfold with_row; simpl. by rewrite list_insert_insert_eq. Qed.

Lemma merge_pair_length row j : length (Val.merge_pair row j) = length row.
Proof.
  unfold Val.merge_pair. repeat case_match; by rewrite ?length_insert.
Qed.

Lemma merge_inner_run df i l js : ∀ st v row,
  heap st !! df = Some v → rows v !! i = Some (l, row) →
  Forall (λ j, j + 1 < length row) js →
  for_ js (λ j, merge_cell df i j) st =
  (Ok tt, upd st df (with_row v i (l, foldl Val.merge_pair row js))).
Proof.
  induction js as [|j js IH]; intros st v row Hdf Hi Hjs; simpl.
  - by rewrite with_row_id, upd_id.
  - apply Forall_cons in Hjs as [Hj Hjs].
    rewrite bind_run, (merge_cell_run _ _ v _ _ l row) by done.
    assert (df < length (heap st)) by by eapply lookup_lt_Some.
    assert (i < length (rows v)) by by eapply lookup_lt_Some.
    erewrite IH.
    + by rewrite upd_upd, with_row_with_row.
    + simpl. by apply list_lookup_insert_eq.
    + simpl. by apply list_lookup_insert_eq.
    + by rewrite merge_pair_length.
Qed.

Lemma merge_outer_run df cols todo : ∀ finished st,
  heap st !! df = Some {| columns := cols; rows := finished ++ todo |} →
  Forall (λ r : nat * list cell, length r.2 = length cols) todo →
  for_ (seq (length finished) (length todo))
       (λ i, m ← reads df (λ v, Ok (length (columns v)));
             for_ (range (m - 1)) (λ j, merge_cell df i j)) st =
  (Ok tt, upd st df {| columns := cols;
                       rows := finished ++ (on_values Val.merge_row <$> todo) |}).
Proof.
  induction todo as [|[l row] todo IH]; intros finished st Hdf Hrect; simpl.
  - by rewrite upd_id.
  - apply Forall_cons in Hrect as [Hrow Hrect]. simpl in Hrow.
    rewrite bind_run, bind_run. erewrite reads_run by done. cbv beta iota. simpl columns.
    erewrite merge_inner_run; [|done|simpl; by apply list_lookup_middle|].
    2:{ apply Forall_forall. intros j [_ Hj]%elem_of_seq. lia. }
    unfold with_row; simpl.
    replace (S (length finished)) with
      (length (finished ++ [(l, foldl Val.merge_pair row (range (length cols - 1)))]))
      by (rewrite length_app; simpl; lia).
    erewrite IH; [|simpl|done].
    + rewrite upd_upd. do 3 f_equal. rewrite <- (assoc (++)). simpl.
      unfold on_values at 2, Val.merge_row. simpl. by rewrite Hrow.
    + assert (df < length (heap st)) by by eapply lookup_lt_Some.
      rewrite list_lookup_insert_eq by done. f_equal. f_equal.
      rewrite <- (assoc (++)). simpl.
      rewrite insert_app_r_alt, Nat.sub_diag by lia. done.
Qed.

Lemma merge_annotations_run st df v :
  heap st !! df = Some v → rectangular v →
  merge_annotations df st =
  (Ok (last (range (length (rows v)))), upd st df (Val.merge_annotations v)).
Proof.
  intros Hdf Hrect. unfold merge_annotations.
  rewrite bind_run. erewrite reads_run by done. cbv beta iota.
  rewrite bind_run. destruct v as [cols rs].
  pose proof (merge_outer_run df cols rs [] st Hdf Hrect) as E.
  simpl in E. unfold range in *. simpl rows. by rewrite E.
Qed.

(** ** Rectangular frames stay rectangular *)

Lemma select_length {A B} (mask : list bool) (xs : list A) (ys : list B) :
  length xs = length ys →
  length (pd.select mask xs) = length (pd.select mask ys).
Proof.
  revert xs ys. induction mask as [|b mask IH]; intros [|x xs] [|y ys] H;
    simpl in *; try done.
  destruct b; simpl; auto.
Qed.

Lemma rectangular_new_DataFrame table_data :
  rectangular (pd.new_DataFrame table_data).
Proof.
  unfold rectangular, pd.new_DataFrame; simpl.
  apply Forall_forall. intros r Hr.
  apply list_elem_of_lookup in Hr as [i Hi].
  rewrite list_lookup_imap in Hi.
  destruct (table_data !! i) as [row|] eqn:E; simplify_eq/=.
  rewrite length_app, !length_fmap, length_replicate, length_seq.
  assert (length row ≤ max_list (length <$> table_data)); [|lia].
  apply max_list_elem_of_le, list_elem_of_fmap. exists row. split; [done|].
  by eapply list_elem_of_lookup_2.
Qed.

Lemma rectangular_replace_blank v :
  rectangular v → rectangular (pd.replace_blank v).
Proof.
  unfold rectangular, pd.replace_blank; simpl. intros H.
  apply Forall_fmap. eapply Forall_impl; [done|].
  intros [l row]; simpl. by rewrite length_fmap.
Qed.

Lemma rectangular_dropna_columns v :
  rectangular v → rectangular (pd.dropna_columns v).
Proof.
  unfold rectangular, pd.dropna_columns; simpl. intros H.
  apply Forall_fmap. eapply Forall_impl; [done|].
  intros [l row]; simpl. apply select_length.
Qed.

Lemma rectangular_dropna_rows v :
  rectangular v → rectangular (pd.dropna_rows v).
Proof.
  unfold rectangular, pd.dropna_rows; simpl. intros H.
  apply Forall_forall. intros r [_ Hr]%list_elem_of_filter.
  by eapply (proj1 (Forall_forall _ _) H).
Qed.

Lemma rectangular_iloc_from_1 v :
  rectangular v → rectangular (pd.iloc_from_1 v).
Proof.
  unfold rectangular, pd.iloc_from_1; simpl. intros H.
  destruct (rows v); simpl; [done|]. by apply Forall_cons in H as [_ ?].
Qed.

Lemma rectangular_reset_index v :
  rectangular v → rectangular (pd.reset_index v).
Proof.
  unfold rectangular, pd.reset_index; simpl. intros H.
  apply Forall_forall. intros r Hr.
  apply list_elem_of_lookup in Hr as [i Hi].
  rewrite list_lookup_imap in Hi.
  destruct (rows v !! i) as [r'|] eqn:E; simplify_eq/=.
  by eapply (Forall_lookup_1 _ _ _ _ H E).
Qed.

Lemma rectangular_drop_empty v :
  rectangular v → rectangular (Val.drop_empty v).
Proof.
  intros. by apply rectangular_dropna_rows, rectangular_dropna_columns,
    rectangular_replace_blank.
Qed.

Lemma rectangular_extract_title v title v' :
  rectangular v → Val.extract_title v = Ok (title, v') → rectangular v'.
Proof.
  unfold Val.extract_title. intros H E.
  destruct (Val.title_extraction v); simplify_eq/=.
  case_bool_decide; [|done].
  by apply rectangular_reset_index, rectangular_iloc_from_1.
Qed.

(** ** The blocks of [clean_tables] compute the functions of [Val] *)

Section Refinement.
Variable h0 : list DataFrame.
Variable fs0 : list (string * list csv_line).

Lemma refines_bind_ok {A B A' B'} (m : M A) (b : B) (k : A → M A')
    (p : outcome B') R R' st :
  refines h0 fs0 m (Ok b) R st →
  (∀ a st', R a b st' → refines h0 fs0 (k a) p R' st') →
  refines h0 fs0 (m ≫= k) p R' st.
Proof.
  intros (a & st' & E & HR) Hk. specialize (Hk a st' HR).
  unfold refines in *. by rewrite bind_run, E.
Qed.

(** One statement of the code against one step of the value: [pure_step]
    when the step cannot fail, [try_step] when it can. *)
Tactic Notation "pure_step" uconstr(lem)
    "as" simple_intropattern(a) simple_intropattern(s) simple_intropattern(H) :=
  eapply refines_bind_ok;
  [eapply lem; eauto using owns_framed, owns_lookup | cbv beta; intros a s H].
Tactic Notation "try_step" uconstr(lem)
    "as" simple_intropattern(a) simple_intropattern(b) simple_intropattern(s)
         simple_intropattern(E) simple_intropattern(H) :=
  eapply refines_bind;
  [eapply lem; eauto using owns_framed, owns_lookup
  | cbv beta; intros a b s E H].

Lemma drop_empty_refines st df_origin v :
  framed h0 fs0 st → heap st !! df_origin = Some v →
  refines h0 fs0 (drop_empty df_origin) (Ok (Val.drop_empty v))
          (λ df v' st', owns h0 fs0 st' df v') st.
Proof.
  intros F L. unfold drop_empty.
  pure_step (refines_fresh h0 fs0 df_origin Ok) as df1 st1 O1.
  pure_step (refines_fresh h0 fs0 df1 (λ v, Ok (pd.replace_blank v)))
    as df2 st2 O2.
  pure_step (refines_inplace h0 fs0 df2 (λ v, Ok (pd.dropna_columns v)))
    as [] st3 O3.
  pure_step (refines_inplace h0 fs0 df2 (λ v, Ok (pd.dropna_rows v)))
    as [] st4 O4.
  by apply refines_ret.
Qed.

Lemma title_extraction_refines st df v :
  owns h0 fs0 st df v →
  refines h0 fs0 (title_extraction df) (Val.title_extraction v)
          (λ a b st', a = b ∧ st' = st) st.
Proof.
  intros O. unfold title_extraction, Val.title_extraction.
  try_step (refines_reads h0 fs0 df (λ v, iloc.get v 0 1))
    as ? title ? _ [-> ->].
  by apply refines_ret.
Qed.

Lemma extract_title_refines st df v :
  owns h0 fs0 st df v →
  refines h0 fs0 (extract_title df) (Val.extract_title v)
          (λ a b st', a.1 = b.1 ∧ owns h0 fs0 st' a.2 b.2) st.
Proof.
  intros O. unfold extract_title, Val.extract_title.
  try_step title_extraction_refines as ? title ? _ [-> ->].
  case_bool_decide.
  - pure_step (refines_fresh h0 fs0 df
                 (λ v, Ok (pd.reset_index (pd.iloc_from_1 v)))) as df1 st1 O1.
    by apply refines_ret.
  - pure_step (refines_ret h0 fs0 df v (λ a b st', a = df ∧ b = v ∧ st' = st))
      as ? ? (-> & _ & ->).
    by apply refines_ret.
Qed.

Lemma merge_annotations_refines st df v :
  owns h0 fs0 st df v → rectangular v →
  refines h0 fs0 (merge_annotations df)
          (Ok (last (range (length (rows v))), Val.merge_annotations v))
          (λ a b st', a = b.1 ∧ owns h0 fs0 st' df b.2) st.
Proof.
  intros O Hrect. unfold refines.
  rewrite (merge_annotations_run st df v) by eauto using owns_lookup.
  eexists _, _. split; [done|]. split; [done|]. by eapply owns_assign.
Qed.

Lemma compact_refines st df v :
  owns h0 fs0 st df v →
  refines h0 fs0 (compact df) (Ok (Val.compact v))
          (λ df' v' st', owns h0 fs0 st' df' v') st.
Proof.
  intros O. unfold compact.
  pure_step (refines_fresh h0 fs0 df (λ v, Ok (pd.apply_rows shift_right v)))
    as df1 st1 O1.
  pure_step (refines_inplace h0 fs0 df1 (λ v, Ok (pd.dropna_columns v)))
    as [] st2 O2.
  by apply refines_ret.
Qed.

Lemma single_value_repair_refines st df v i :
  owns h0 fs0 st df v →
  refines h0 fs0 (single_value_repair df i) (Val.single_value_repair v i)
          (λ df' v' st', owns h0 fs0 st' df' v') st.
Proof.
  intros O. unfold single_value_repair, Val.single_value_repair.
  try_step (refines_reads h0 fs0 df (λ v, iloc.row v 0))
    as ? values ? _ [-> ->].
  destruct (count_values values) as [count non_nan_val].
  destruct (count =? 1); [|by apply refines_ret].
  try_step (refines_lift h0 fs0 (local non_nan_val))
    as ? single_value ? _ [-> ->].
  try_step (refines_reads h0 fs0 df (λ v, pd.dropna_tolist <$> iloc.row v 1))
    as ? second_row_values ? _ [-> ->].
  pure_step (refines_reads h0 fs0 df (λ v, Ok (length (columns v))))
    as shape_1 ? [? ->]; subst shape_1.
  try_step (refines_inplace h0 fs0 df (λ v, iloc.set_row v 1 _))
    as [] v1 st1 _ O1.
  try_step (refines_lift h0 fs0 (local i)) as ? i' ? _ [-> ->].
  try_step (refines_inplace h0 fs0 df (λ v, drop_index v i'))
    as [] v2 st2 _ O2.
  pure_step (refines_inplace h0 fs0 df (λ v, Ok (pd.reset_index v)))
    as [] st3 O3.
  eapply (refines_fresh h0 fs0 df
            (λ v, Ok (pd.reset_index (pd.iloc_from_1 v))));
    eauto using owns_framed, owns_lookup.
Qed.

Lemma capture_header_refines st df v :
  owns h0 fs0 st df v →
  refines h0 fs0 (capture_header df) (Val.capture_header v)
          (λ df' v' st', owns h0 fs0 st' df' v') st.
Proof.
  intros O. unfold capture_header, Val.capture_header.
  try_step (refines_reads h0 fs0 df (λ v, iloc.row v 0))
    as ? stored_columns ? _ [-> ->].
  pure_step (refines_fresh h0 fs0 df (λ v, Ok (pd.apply_rows shift_left v)))
    as df1 st1 O1.
  try_step (refines_inplace h0 fs0 df1 (λ v, set_columns v stored_columns))
    as [] v2 st2 _ O2.
  eapply (refines_fresh h0 fs0 df1
            (λ v, Ok (pd.reset_index (pd.iloc_from_1 v))));
    eauto using owns_framed, owns_lookup.
Qed.

Lemma normalize_refines st df_origin v :
  framed h0 fs0 st → heap st !! df_origin = Some v → rectangular v →
  refines h0 fs0 (normalize df_origin) (Val.normalize v)
          (λ a b st', a.1 = b.1 ∧ owns h0 fs0 st' a.2 b.2) st.
Proof.
  intros F L Hrect. unfold normalize, Val.normalize.
  pure_step drop_empty_refines as df1 st1 O1.
  try_step extract_title_refines as [title df2] [title' v2] st2 E2 [Ht O2].
  simpl in *. subst title'.
  assert (rectangular v2)
    by eauto using rectangular_extract_title, rectangular_drop_empty.
  pure_step merge_annotations_refines as i st3 [-> O3].
  simpl in O3.
  pure_step compact_refines as df4 st4 O4.
  try_step single_value_repair_refines as df5 v5 st5 _ O5.
  try_step capture_header_refines as df6 v6 st6 _ O6.
  by apply refines_ret.
Qed.

Lemma for_acc_refines {A B} (body : B → A → M B) pbody st xs : ∀ acc,
  (∀ acc x, refines h0 fs0 (body acc x) (pbody acc x)
                    (λ a b st', a = b ∧ st' = st) st) →
  refines h0 fs0 (for_acc xs acc body) (Val.for_acc xs acc pbody)
          (λ a b st', a = b ∧ st' = st) st.
Proof.
  induction xs as [|x xs IH]; intros acc Hbody; simpl.
  - by exists acc, st.
  - eapply refines_bind; [apply Hbody|].
    intros a b st' _ [-> ->]. by apply IH.
Qed.

Lemma structured_rows_refines st df v file_name title :
  owns h0 fs0 st df v →
  refines h0 fs0 (structured_rows file_name title df)
          (Val.structured_rows file_name title v)
          (λ a b st', a = b ∧ st' = st) st.
Proof.
  intros O. unfold structured_rows, Val.structured_rows.
  pure_step (refines_reads h0 fs0 df (λ v, Ok (length (rows v))))
    as n ? [? ->]; subst n.
  apply for_acc_refines. intros acc row_idx.
  try_step (refines_reads h0 fs0 df (λ v, iloc.get v row_idx 0))
    as ? label ? _ [-> ->].
  pure_step (refines_reads h0 fs0 df (λ v, Ok (length (columns v))))
    as m ? [? ->]; subst m.
  apply for_acc_refines. intros acc' col_idx.
  try_step (refines_reads h0 fs0 df (λ v,
    match columns v !! col_idx with
    | Some l => Ok l
    | None => Raise IndexError
    end)) as ? column_name ? _ [-> ->].
  try_step (refines_reads h0 fs0 df (λ v, iloc.get v row_idx col_idx))
    as ? value ? _ [-> ->].
  by exists (acc' ++
    [{| filename := file_name; label := label; tablename := title;
        column_name := column_name; value := value |}]), st.
Qed.

Lemma store_data_refines st df v file_path title output_file first_run :
  owns h0 fs0 st df v →
  refines h0 fs0 (store_data file_path title df output_file first_run)
          (Val.structured_rows (name file_path) title v)
          (λ _ result_df st', stored h0 fs0 output_file first_run result_df st')
          st.
Proof.
  intros O. unfold store_data.
  rewrite <- (right_id_outcome (Val.structured_rows _ _ _)).
  try_step structured_rows_refines as ? structured_data ? _ [-> ->].
  destruct O as [[Hp Hf] _].
  eexists tt, _. split; [reflexivity|]. split; simpl; [done|].
  by rewrite Hf.
Qed.

Lemma clean_tables_refines st df_origin v file_path first_run :
  framed h0 fs0 st → heap st !! df_origin = Some v → rectangular v →
  refines h0 fs0 (clean_tables df_origin file_path first_run)
          (Val.clean_tables v file_path)
          (λ _ result_df st',
             stored h0 fs0 "final_result.csv" first_run result_df st') st.
Proof.
  intros F L Hrect. unfold clean_tables, Val.clean_tables.
  try_step normalize_refines as [title df] [title' v'] st1 _ [Ht O].
  simpl in *. subst title'. by apply store_data_refines.
Qed.

Lemma refines_Ok_inv {A B} (m : M A) (p : outcome B) R st a st' :
  refines h0 fs0 m p R st → m st = (Ok a, st') →
  ∃ b, p = Ok b ∧ R a b st'.
Proof.
  destruct p as [b|e]; simpl.
  - intros (a' & st'' & E & HR) E'. rewrite E in E'. simplify_eq. eauto.
  - intros (st'' & E & _) E'. rewrite E in E'. simplify_eq.
Qed.

Lemma refines_Raise_inv {A B} (m : M A) (p : outcome B) R st e st' :
  refines h0 fs0 m p R st → m st = (Raise e, st') →
  p = Raise e ∧ framed h0 fs0 st'.
Proof.
  destruct p as [b|e']; simpl.
  - intros (a' & st'' & E & HR) E'. rewrite E in E'. simplify_eq.
  - intros (st'' & E & ?) E'. rewrite E in E'. by simplify_eq.
Qed.

End Refinement.

(** ** Shapes of the later steps *)

Lemma isna_sum_dropna_length row :
  pd.isna_sum row + length (pd.dropna_tolist row) = length row.
Proof.
  unfold pd.isna_sum, pd.dropna_tolist, notna.
  induction row as [|c row IH]; [done|].
  rewrite !filter_cons. destruct c; simpl; repeat case_decide; simpl; try done; lia.
Qed.

Lemma shift_right_length row : length (shift_right row) = length row.
Proof.
  unfold shift_right. rewrite length_app, length_replicate.
  apply isna_sum_dropna_length.
Qed.

Lemma shift_left_length row : length (shift_left row) = length row.
Proof.
  unfold shift_left. rewrite length_app, length_replicate.
  pose proof (isna_sum_dropna_length row). lia.
Qed.

Lemma merge_row_length row : length (Val.merge_row row) = length row.
Proof.
  unfold Val.merge_row. generalize (range (length row - 1)) as js.
  intros js. revert row. induction js as [|j js IH]; intros row; simpl; [done|].
  by rewrite IH, merge_pair_length.
Qed.

Lemma rectangular_merge_annotations v :
  rectangular v → rectangular (Val.merge_annotations v).
Proof.
  unfold rectangular, Val.merge_annotations; simpl. intros H.
  apply Forall_fmap. eapply Forall_impl; [done|].
  intros [l row]; simpl. by rewrite merge_row_length.
Qed.

Lemma rectangular_apply_rows f v :
  (∀ row, length (f row) = length row) →
  rectangular v → rectangular (pd.apply_rows f v).
Proof.
  intros Hf H. unfold pd.apply_rows.
  destruct (rows v) as [|r rs] eqn:Er; [done|].
  destruct (columns v) as [|x xs] eqn:Ec; [done|].
  unfold rectangular in *. rewrite Er, Ec in H. cbn [columns rows].
  apply Forall_fmap. eapply Forall_impl; [exact H|].
  intros [l row] Hl; simpl in *. by rewrite Hf, length_fmap, length_seq.
Qed.

Lemma rectangular_compact v : rectangular v → rectangular (Val.compact v).
Proof.
  intros. apply rectangular_dropna_columns, rectangular_apply_rows; [|done].
  apply shift_right_length.
Qed.

Lemma rectangular_set_row v i values v' :
  rectangular v → iloc.set_row v i values = Ok v' → rectangular v'.
Proof.
  unfold iloc.set_row, rectangular. intros H E.
  destruct (rows v !! i) as [r|] eqn:Er; [|done].
  case_decide; simplify_eq/=.
  apply Forall_insert; [done|]. done.
Qed.

Lemma rectangular_drop_index v l v' :
  rectangular v → drop_index v l = Ok v' → rectangular v'.
Proof.
  unfold drop_index, rectangular. intros H E. case_decide; simplify_eq/=.
  apply Forall_forall. intros r [_ Hr]%list_elem_of_filter.
  by eapply (proj1 (Forall_forall _ _) H).
Qed.

Lemma rectangular_single_value_repair v i v' :
  rectangular v → Val.single_value_repair v i = Ok v' → rectangular v'.
Proof.
  unfold Val.single_value_repair. intros H E.
  destruct (iloc.row v 0) as [values|]; simplify_eq/=.
  destruct (count_values values) as [count non_nan_val].
  destruct (count =? 1); [|by simplify_eq].
  destruct (local non_nan_val) as [single|]; simplify_eq/=.
  destruct (iloc.row v 1) as [second|]; simplify_eq/=.
  destruct (iloc.set_row v 1 _) as [v1|] eqn:E1; simplify_eq/=.
  destruct (local i) as [i'|]; simplify_eq/=.
  destruct (drop_index v1 i') as [v2|] eqn:E2; simplify_eq/=.
  apply rectangular_reset_index, rectangular_iloc_from_1, rectangular_reset_index.
  eauto using rectangular_drop_index, rectangular_set_row.
Qed.

Lemma rectangular_set_columns v names v' :
  rectangular v → set_columns v names = Ok v' → rectangular v'.
Proof.
  unfold set_columns, rectangular. intros H E. case_decide; simplify_eq/=.
  rewrite length_fmap. eapply Forall_impl; [done|]. intros r ?; simpl in *. congruence.
Qed.

Lemma rectangular_capture_header v v' :
  rectangular v → Val.capture_header v = Ok v' → rectangular v'.
Proof.
  unfold Val.capture_header. intros H E.
  destruct (iloc.row v 0) as [stored|]; simplify_eq/=.
  destruct (set_columns _ stored) as [v1|] eqn:E1; simplify_eq/=.
  apply rectangular_reset_index, rectangular_iloc_from_1.
  eapply rectangular_set_columns; [|done].
  apply rectangular_apply_rows; [apply shift_left_length|done].
Qed.

Lemma rectangular_normalize v title v' :
  rectangular v → Val.normalize v = Ok (title, v') → rectangular v'.
Proof.
  unfold Val.normalize. intros H E.
  destruct (Val.extract_title _) as [[t v1]|] eqn:E1; simplify_eq/=.
  destruct (Val.single_value_repair _ _) as [v2|] eqn:E2; simplify_eq/=.
  destruct (Val.capture_header v2) as [v3|] eqn:E3; simplify_eq/=.
  eapply rectangular_capture_header; [|done].
  eapply rectangular_single_value_repair; [|done].
  apply rectangular_compact, rectangular_merge_annotations.
  eauto using rectangular_extract_title, rectangular_drop_empty.
Qed.

(** ** Compaction *)

Lemma dropna_tolist_replicate_NaN n : pd.dropna_tolist (replicate n NaN) = [].
Proof.
  unfold pd.dropna_tolist. induction n as [|n IH]; [done|].
  cbn [replicate]. rewrite filter_cons. by case_decide.
Qed.

Lemma isna_sum_replicate_NaN n : pd.isna_sum (replicate n NaN) = n.
Proof.
  unfold pd.isna_sum. induction n as [|n IH]; [done|].
  cbn [replicate]. rewrite filter_cons. case_decide; [|done].
  cbn [length]. by rewrite IH.
Qed.

Lemma dropna_tolist_idemp row :
  pd.dropna_tolist (pd.dropna_tolist row) = pd.dropna_tolist row.
Proof.
  unfold pd.dropna_tolist. rewrite list_filter_filter.
  apply list_filter_iff. intros c. split; [by intros [? _]|done].
Qed.

Lemma isna_sum_dropna row : pd.isna_sum (pd.dropna_tolist row) = 0.
Proof.
  unfold pd.isna_sum, pd.dropna_tolist. rewrite list_filter_filter.
  induction row as [|c row IH]; [done|].
  rewrite filter_cons_False; [done|]. unfold notna.
  destruct c; simpl; intros [? ?]; done.
Qed.

Lemma dropna_tolist_app r1 r2 :
  pd.dropna_tolist (r1 ++ r2) = pd.dropna_tolist r1 ++ pd.dropna_tolist r2.
Proof. apply filter_app. Qed.

Lemma isna_sum_app r1 r2 :
  pd.isna_sum (r1 ++ r2) = pd.isna_sum r1 + pd.isna_sum r2.
Proof. unfold pd.isna_sum. by rewrite filter_app, length_app. Qed.

(** C8.  Left-compaction, the lambda of line 164 that moves the absent
    cells of a row to its start and keeps the present ones in order, is
    idempotent. *)
Theorem C8_left_compaction_idempotent (row : list cell) :
  shift_right (shift_right row) = shift_right row.
Proof.
  unfold shift_right at 2 3.
  generalize (pd.isna_sum row) as k. intros k. unfold shift_right.
  rewrite isna_sum_app, dropna_tolist_app.
  rewrite isna_sum_replicate_NaN, dropna_tolist_replicate_NaN.
  rewrite isna_sum_dropna, dropna_tolist_idemp.
  by rewrite Nat.add_0_r.
Qed.

(** ** The normalized table *)

(** C6.  In the frame that normalization hands to [store_data], every data
    row has exactly as many cells as there are column names, cell [c] of a
    row standing under column name [c]. *)
Theorem C6_data_rows_match_header (st : store) (df_origin : ref)
    (v : DataFrame) (title : string) (df : ref) (st' : store) :
  heap st !! df_origin = Some v →
  rectangular v →
  normalize df_origin st = (Ok (title, df), st') →
  ∃ table, heap st' !! df = Some table ∧
    Forall (λ r : nat * list cell, length r.2 = length (columns table))
           (rows table).
Proof.
  intros L Hrect E.
  assert (F : framed (heap st) (files st) st) by done.
  destruct (refines_Ok_inv _ _ _ _ _ _ _ _
              (normalize_refines _ _ _ _ _ F L Hrect) E)
    as ([title' table] & Ep & Ht & O); simpl in *.
  exists table. split; [by eapply owns_lookup|].
  by eapply rectangular_normalize.
Qed.

Lemma C6_data_rows_match_header_witness :
  ∃ table,
    heap (normalize 0 {| heap := [pd.new_DataFrame q1_report]; files := [] |}).2
      !! 6 = Some table ∧
    Forall (λ r : nat * list cell, length r.2 = length (columns table))
           (rows table).
Proof.
  eapply (C6_data_rows_match_header
            {| heap := [pd.new_DataFrame q1_report]; files := [] |} 0
            (pd.new_DataFrame q1_report) "Q1 Report" 6).
  - reflexivity.
  - repeat constructor.
  - vm_compute. reflexivity.
Defined.

(** ** The caller's frame *)

Section Keeps.
Variable n : nat.

Lemma keeps_ret {A} (P : A → Prop) a : P a → keeps n P (mret a).
Proof. intros Ha st Hn. simpl. repeat split; [done|]. by intros ? [= <-]. Qed.

Lemma keeps_lift {A} (o : outcome A) : keeps n (λ _, True) (lift o).
Proof. by intros st Hn. Qed.

Lemma keeps_bind {A B} (P : A → Prop) (Q : B → Prop) (m : M A) (k : A → M B) :
  keeps n P m → (∀ a, P a → keeps n Q (k a)) → keeps n Q (m ≫= k).
Proof.
  intros Hm Hk st Hn. rewrite bind_run.
  destruct (Hm st Hn) as (Ht & Hl & HP).
  destruct (m st) as [[a|e] st'] eqn:E; simpl in *.
  - destruct (Hk a (HP a eq_refl) st' Hl) as (Ht' & Hl' & HQ).
    rewrite Ht'. done.
  - done.
Qed.

Lemma keeps_weaken {A} (P Q : A → Prop) (m : M A) :
  keeps n P m → (∀ a, P a → Q a) → keeps n Q m.
Proof.
  intros Hm HPQ st Hn. destruct (Hm st Hn) as (? & ? & ?). eauto.
Qed.

Lemma keeps_deref r : keeps n (λ _, True) (deref r).
Proof. intros st Hn. unfold deref. by destruct (heap st !! r). Qed.

Lemma keeps_new v : keeps n (λ r, n ≤ r) (new v).
Proof.
  intros st Hn. simpl. rewrite take_app_le, length_app by done.
  repeat split; [lia|]. by intros ? [= <-].
Qed.

Lemma keeps_assign r v : n ≤ r → keeps n (λ _, True) (assign r v).
Proof.
  intros Hr st Hn. simpl. rewrite take_insert_ge, length_insert by done. done.
Qed.

Lemma keeps_reads {A} r (f : DataFrame → outcome A) :
  keeps n (λ _, True) (reads r f).
Proof.
  eapply keeps_bind; [apply keeps_deref|]. intros. apply keeps_lift.
Qed.

Lemma keeps_fresh r f : keeps n (λ r', n ≤ r') (fresh r f).
Proof.
  eapply keeps_bind; [apply keeps_deref|]. intros v _.
  eapply keeps_bind; [apply keeps_lift|]. intros v' _. apply keeps_new.
Qed.

Lemma keeps_inplace r f : n ≤ r → keeps n (λ _, True) (inplace r f).
Proof.
  intros Hr. eapply keeps_bind; [apply keeps_deref|]. intros v _.
  eapply keeps_bind; [apply keeps_lift|]. intros v' _. by apply keeps_assign.
Qed.

Lemma keeps_when b m : keeps n (λ _, True) m → keeps n (λ _, True) (when b m).
Proof. destruct b; [done|]. intros _. by apply keeps_ret. Qed.

Lemma keeps_for {A} (xs : list A) body :
  (∀ x, keeps n (λ _, True) (body x)) → keeps n (λ _, True) (for_ xs body).
Proof.
  intros Hbody. induction xs as [|x xs IH]; simpl.
  - by apply keeps_ret.
  - eapply keeps_bind; [apply Hbody|]. by intros.
Qed.

Lemma keeps_for_acc {A B} (xs : list A) (body : B → A → M B) : ∀ acc,
  (∀ acc x, keeps n (λ _, True) (body acc x)) →
  keeps n (λ _, True) (for_acc xs acc body).
Proof.
  induction xs as [|x xs IH]; intros acc Hbody; simpl.
  - by apply keeps_ret.
  - eapply keeps_bind; [apply Hbody|]. intros. by apply IH.
Qed.

Lemma keeps_update_file f g : keeps n (λ _, True) (update_file f g).
Proof. by intros st Hn. Qed.

End Keeps.

Ltac keeps_leaf :=
  first
    [ apply keeps_reads
    | apply keeps_fresh
    | apply keeps_inplace; done
    | apply keeps_lift
    | apply keeps_update_file
    | apply keeps_ret; done
    | eapply keeps_weaken; [apply keeps_fresh|done] ].

Ltac keeps_steps :=
  repeat first
    [ keeps_leaf
    | apply keeps_when
    | apply keeps_for; intros ?
    | apply keeps_for_acc; intros ? ?
    | eapply keeps_bind; [keeps_leaf | intros ? ?]
    | eapply keeps_bind; [apply keeps_when | intros ? ?] ].

Section KeepsBlocks.
Variable n : nat.

Lemma keeps_title_extraction df : keeps n (λ _, True) (title_extraction df).
Proof. unfold title_extraction. keeps_steps. Qed.

Lemma keeps_structured_rows file_name title df :
  keeps n (λ _, True) (structured_rows file_name title df).
Proof. unfold structured_rows. keeps_steps. Qed.

Lemma keeps_store_data file_path title df output_file first_run :
  keeps n (λ _, True) (store_data file_path title df output_file first_run).
Proof.
  unfold store_data.
  eapply keeps_bind; [apply keeps_structured_rows|]. intros. keeps_steps.
Qed.

Lemma keeps_drop_empty df_origin : keeps n (λ df, n ≤ df) (drop_empty df_origin).
Proof. unfold drop_empty. keeps_steps. Qed.

Lemma keeps_extract_title df :
  n ≤ df → keeps n (λ a : string * ref, n ≤ a.2) (extract_title df).
Proof.
  intros Hdf. unfold extract_title.
  eapply keeps_bind; [apply keeps_title_extraction|]. intros title _.
  eapply (keeps_bind _ (λ df', n ≤ df')).
  - case_bool_decide; keeps_steps.
  - intros df' Hdf'. by apply keeps_ret.
Qed.

Lemma keeps_merge_cell df i j :
  n ≤ df → keeps n (λ _, True) (merge_cell df i j).
Proof. intros Hdf. unfold merge_cell. keeps_steps. Qed.

Lemma keeps_merge_annotations df :
  n ≤ df → keeps n (λ _, True) (merge_annotations df).
Proof.
  intros Hdf. unfold merge_annotations.
  eapply keeps_bind; [keeps_leaf|]. intros len _.
  eapply (keeps_bind _ (λ _, True)); [|intros; by apply keeps_ret].
  apply keeps_for. intros i.
  eapply keeps_bind; [keeps_leaf|]. intros m _.
  apply keeps_for. intros j. by apply keeps_merge_cell.
Qed.

Lemma keeps_compact df : n ≤ df → keeps n (λ df', n ≤ df') (compact df).
Proof. intros Hdf. unfold compact. keeps_steps. Qed.

Lemma keeps_single_value_repair df i :
  n ≤ df → keeps n (λ df', n ≤ df') (single_value_repair df i).
Proof.
  intros Hdf. unfold single_value_repair.
  eapply keeps_bind; [keeps_leaf|]. intros values _.
  destruct (count_values values) as [count non_nan_val].
  destruct (count =? 1); keeps_steps.
Qed.

Lemma keeps_capture_header df :
  n ≤ df → keeps n (λ df', n ≤ df') (capture_header df).
Proof. intros Hdf. unfold capture_header. keeps_steps. Qed.

Lemma keeps_normalize df_origin :
  keeps n (λ a : string * ref, n ≤ a.2) (normalize df_origin).
Proof.
  unfold normalize.
  eapply keeps_bind; [apply keeps_drop_empty|]. intros df1 H1.
  eapply keeps_bind; [by apply keeps_extract_title|]. intros [title df2] H2.
  eapply keeps_bind; [by apply keeps_merge_annotations|]. intros i _.
  eapply keeps_bind; [by apply keeps_compact|]. intros df4 H4.
  eapply keeps_bind; [by apply keeps_single_value_repair|]. intros df5 H5.
  eapply keeps_bind; [by apply keeps_capture_header|]. intros df6 H6.
  by apply keeps_ret.
Qed.

Lemma keeps_clean_tables df_origin file_path first_run :
  keeps n (λ _, True) (clean_tables df_origin file_path first_run).
Proof.
  unfold clean_tables.
  eapply keeps_bind; [apply keeps_normalize|]. intros [title df] H.
  apply keeps_store_data.
Qed.

End KeepsBlocks.

(** C9.  [clean_tables] does not change the frame it is given: whatever
    the frame and whatever the outcome, the object [df_origin], like every
    object the heap held at the call, has afterwards the value it had
    before.  All updates in place are made on objects created after the
    copy of line 130. *)
Theorem C9_input_frame_unchanged (st : store) (df_origin : ref)
    (v : DataFrame) (file_path : Path) (first_run : bool) :
  heap st !! df_origin = Some v →
  heap (clean_tables df_origin file_path first_run st).2 !! df_origin = Some v
  ∧ take (length (heap st))
         (heap (clean_tables df_origin file_path first_run st).2)
    = heap st.
Proof.
  intros L.
  destruct (keeps_clean_tables (length (heap st)) df_origin file_path first_run
              st (le_n _)) as (Ht & _ & _).
  rewrite firstn_all in Ht. split; [|done].
  rewrite <- Ht in L. apply lookup_take_Some in L. by destruct L.
Qed.

Lemma C9_input_frame_unchanged_witness :
  heap (clean_tables 0 q1_path true
          {| heap := [pd.new_DataFrame q1_report]; files := [] |}).2 !! 0
    = Some (pd.new_DataFrame q1_report)
  ∧ take 1 (heap (clean_tables 0 q1_path true
                    {| heap := [pd.new_DataFrame q1_report]; files := [] |}).2)
    = [pd.new_DataFrame q1_report].
Proof.
  apply (C9_input_frame_unchanged
           {| heap := [pd.new_DataFrame q1_report]; files := [] |} 0
           (pd.new_DataFrame q1_report)).
  reflexivity.
Defined.

(** ** A table that cannot be cleaned *)

Lemma empty_frame_raises v file_path :
  rows (Val.drop_empty v) = [] →
  Val.clean_tables v file_path = Raise IndexError.
Proof.
  intros H. unfold Val.clean_tables, Val.normalize, Val.extract_title,
    Val.title_extraction, iloc.get.
  by rewrite H.
Qed.

Lemma cleaning_loop_app process pre : ∀ first_run rest st,
  cleaning_loop process first_run (pre ++ rest) st =
  match cleaning_loop process first_run pre st with
  | (Ok _, st1) =>
      cleaning_loop process (match pre with [] => first_run | _ => false end)
                    rest st1
  | (Raise e, st1) => (Raise e, st1)
  end.
Proof.
  induction pre as [|t pre IH]; intros first_run rest st; [done|].
  simpl. rewrite !bind_run.
  destruct (process t.1 t.2 first_run st) as [[[]|e] st1]; [|done].
  rewrite IH. destruct (cleaning_loop process false pre st1) as [[[]|e] st2];
    [|done].
  by destruct pre.
Qed.

(** C3, as the code has it.  There is no [MalformedTableError] and nothing
    catches an exception.  A table that has no row left after the blank
    cells and the empty columns and rows are removed (lines 133-137) makes
    [clean_tables] raise [IndexError] (from [title_extraction]); and whenever
    [clean_tables] raises on a table, that table adds nothing to the output
    file and the loop of lines 215-219 stops there with that exception,
    whatever tables follow. *)
Theorem C3_unreducible_table_aborts_run (st : store)
    (pre : list (ref * Path)) (df_origin : ref) (file_path : Path)
    (v : DataFrame) (first_run : bool) (st1 : store) :
  cleaning_loop clean_tables first_run pre st = (Ok tt, st1) →
  heap st1 !! df_origin = Some v →
  rectangular v →
  (rows (Val.drop_empty v) = [] →
   ∀ flag, (clean_tables df_origin file_path flag st1).1 = Raise IndexError)
  ∧ (∀ e,
       (clean_tables df_origin file_path
          (match pre with [] => first_run | _ => false end) st1).1 = Raise e →
       ∃ st2,
         files st2 = files st1 ∧
         ∀ post, cleaning_loop clean_tables first_run
                   (pre ++ (df_origin, file_path) :: post) st
                 = (Raise e, st2)).
Proof.
  intros Epre L Hrect.
  assert (F : framed (heap st1) (files st1) st1) by done.
  split.
  - intros Hrows flag.
    pose proof (clean_tables_refines _ _ _ _ _ file_path flag F L Hrect) as R.
    rewrite (empty_frame_raises _ _ Hrows) in R.
    destruct R as (st2 & E & _). by rewrite E.
  - intros e He.
    set (flag := match pre with [] => first_run | _ => false end) in *.
    pose proof (clean_tables_refines _ _ _ _ _ file_path flag F L Hrect) as R.
    destruct (clean_tables df_origin file_path flag st1) as [o st2] eqn:E.
    simpl in He. subst o.
    destruct (refines_Raise_inv _ _ _ _ _ _ _ _ R E) as (_ & _ & Hf).
    exists st2. split; [done|]. intros post.
    rewrite cleaning_loop_app, Epre. fold flag. simpl.
    by rewrite bind_run, E.
Qed.

Lemma C3_unreducible_table_aborts_run_witness :
  (rows (Val.drop_empty (pd.new_DataFrame blank_table)) = [] →
   ∀ flag,
     (clean_tables 0 q1_path flag
        {| heap := [pd.new_DataFrame blank_table]; files := [] |}).1
     = Raise IndexError)
  ∧ (∀ e,
       (clean_tables 0 q1_path true
          {| heap := [pd.new_DataFrame blank_table]; files := [] |}).1
       = Raise e →
       ∃ st2,
         files st2 = [] ∧
         ∀ post, cleaning_loop clean_tables true ([] ++ (0, q1_path) :: post)
                   {| heap := [pd.new_DataFrame blank_table]; files := [] |}
                 = (Raise e, st2)).
Proof.
  apply (C3_unreducible_table_aborts_run
           {| heap := [pd.new_DataFrame blank_table]; files := [] |} [] 0
           q1_path (pd.new_DataFrame blank_table) true
           {| heap := [pd.new_DataFrame blank_table]; files := [] |}).
  - reflexivity.
  - reflexivity.
  - repeat constructor.
Defined.

(** C3 as stated fails: with a blank table before the Q1 table in the same
    file, the run ends with an uncaught [IndexError] and the Q1 table, which
    on its own yields a record, is never processed: no file is written. *)
Lemma C3_counterexample :
  (main "reports" [("a.html", [blank_table; q1_report])] empty_store).1
    = Raise IndexError
  ∧ files (main "reports" [("a.html", [blank_table; q1_report])] empty_store).2
    = []
  ∧ records_of (read_file
      (files (main "reports" [("a.html", [q1_report])] empty_store).2)
      "final_result.csv") ≠ [].
Proof. repeat split; [vm_compute; reflexivity.. | by vm_compute]. Qed.

(** ** The first-write flag *)

Lemma read_write_file fs f ls : read_file (write_file fs f ls) f = ls.
Proof.
  induction fs as [|[g old] fs IH]; simpl.
  - by rewrite String.eqb_refl.
  - destruct (String.eqb g f) eqn:E; simpl; by rewrite E.
Qed.

Lemma cleaning_loop_flags process all_tables :
  cleaning_loop process true all_tables =
  for_ (zip all_tables (first_run_flags (length all_tables)))
       (λ call, process call.1.1 call.1.2 call.2).
Proof.
  destruct all_tables as [|t rest]; [done|]. simpl. f_equal.
  induction rest as [|t' rest IH]; [done|]. simpl. by rewrite IH.
Qed.

(** C7 fails on the code by a missed case.  [store_data] called with
    [first_run = True] replaces whatever the output file held, and called
    with [first_run = False] it keeps the old content and appends the
    records without a header line; the loop of lines 214-219 passes [True]
    to its first call and [False] to every later one, so that exactly one
    call of a run over at least one table has the flag set.  But the header
    line of line 107 carries the column names of [result_df], which are the
    keys of the records: it names the five columns only when the table gives
    at least one record.  For a table without records [result_df] has no
    column and the line written is empty.  When the first table of a run is
    such a table, as [header_only_table], the names are never written: the
    records of the later tables follow an empty line. *)
Theorem C7_no_column_names_after_empty_first_table (st : store) (df : ref)
    (v : DataFrame) (file_path : Path) (title output_file : string)
    (result_df : list TidyRecord) (st0 : store) :
  heap st !! df = Some v →
  structured_rows (name file_path) title df st = (Ok result_df, st0) →
  (∃ st', store_data file_path title df output_file true st = (Ok tt, st')
          ∧ (result_df ≠ [] →
             read_file (files st') output_file
             = HeaderLine ["filename"; "label"; "tablename"; "column name";
                           "value"]
               :: (RecordLine <$> result_df))
          ∧ (result_df = [] →
             read_file (files st') output_file = [HeaderLine []]))
  ∧ (∃ st', store_data file_path title df output_file false st = (Ok tt, st')
            ∧ read_file (files st') output_file
              = read_file (files st) output_file ++ (RecordLine <$> result_df))
  ∧ (∀ process all_tables,
       cleaning_loop process true all_tables =
       for_ (zip all_tables (first_run_flags (length all_tables)))
            (λ call, process call.1.1 call.1.2 call.2))
  ∧ (∀ n, first_run_flags (S n) !! 0 = Some true
          ∧ length (filter (λ b, b = true) (first_run_flags (S n))) = 1)
  ∧ (main "reports" [("q1.html", [header_only_table; q1_report])]
          empty_store).1 = Ok tt
  ∧ read_file
      (files (main "reports" [("q1.html", [header_only_table; q1_report])]
                   empty_store).2)
      "final_result.csv"
    = [HeaderLine []; RecordLine q1_record]
  ∧ read_file
      (files (main "reports" [("q1.html", [q1_report; header_only_table])]
                   empty_store).2)
      "final_result.csv"
    = [HeaderLine ["filename"; "label"; "tablename"; "column name"; "value"];
       RecordLine q1_record].
Proof.
  intros L E.
  assert (O : owns [] (files st) st df v).
  { repeat split; [apply prefix_nil|simpl; lia|done]. }
  destruct (refines_Ok_inv _ _ _ _ _ _ _ _
              (structured_rows_refines _ _ _ _ _ (name file_path) title O) E)
    as (recs & Ev & -> & ->).
  split; [|split; [|split; [|split]]].
  - pose proof (store_data_refines _ _ _ _ _ file_path title output_file true O)
      as R.
    rewrite Ev in R. destruct R as ([] & st' & Er & _ & Hf).
    exists st'. split; [done|].
    rewrite Hf, read_write_file. cbn [to_csv app].
    split; [by destruct recs|by intros ->].
  - pose proof (store_data_refines _ _ _ _ _ file_path title output_file false O)
      as R.
    rewrite Ev in R. destruct R as ([] & st' & Er & _ & Hf).
    exists st'. split; [done|]. by rewrite Hf, read_write_file.
  - apply cleaning_loop_flags.
  - intros n. split; [done|].
    cbn [first_run_flags]. rewrite filter_cons_True by done.
    cbn [length]. f_equal.
    induction n as [|n IH]; [done|].
    cbn [replicate]. by rewrite filter_cons_False.
  - repeat split; vm_compute; reflexivity.
Qed.

Lemma C7_no_column_names_after_empty_first_table_witness :
  ∃ st', store_data q1_path "T" 0 "final_result.csv" true
           {| heap := [ {| columns := [Name (Text "h"); Name (Text "v")];
                           rows := [] |} ];
              files := [("final_result.csv",
                         [HeaderLine ["filename"; "label"; "tablename";
                                      "column name"; "value"]])] |}
         = (Ok tt, st')
         ∧ (@nil TidyRecord ≠ [] →
            read_file (files st') "final_result.csv"
            = HeaderLine ["filename"; "label"; "tablename"; "column name";
                          "value"]
              :: (RecordLine <$> []))
         ∧ (@nil TidyRecord = [] →
            read_file (files st') "final_result.csv" = [HeaderLine []]).
Proof.
  exact (proj1 (C7_no_column_names_after_empty_first_table
                  {| heap := [ {| columns := [Name (Text "h"); Name (Text "v")];
                                  rows := [] |} ];
                     files := [("final_result.csv",
                                [HeaderLine ["filename"; "label"; "tablename";
                                             "column name"; "value"]])] |}
                  0 {| columns := [Name (Text "h"); Name (Text "v")];
                       rows := [] |}
                  q1_path "T" "final_result.csv" []
                  {| heap := [ {| columns := [Name (Text "h"); Name (Text "v")];
                                  rows := [] |} ];
                     files := [("final_result.csv",
                                [HeaderLine ["filename"; "label"; "tablename";
                                             "column name"; "value"]])] |}
                  eq_refl eq_refl)).
Defined.

(** ** The end-to-end scenario *)

(** C1 as stated fails: the records written for [q1_report] are not the
    two the scenario expects. *)
Lemma C1_counterexample :
  ¬ q1_expected
      (records_of
         (read_file
            (files (main "reports" [("q1.html", [q1_report])] empty_store).2)
            "final_result.csv")).
Proof. intros (r1 & r2 & E & _). vm_compute in E. discriminate E. Qed.

(** C1, as the code has it.  The script run on one document holding the
    one table [q1_report] ends normally and writes the header line and
    exactly one record: after the title row is removed the first row left,
    [Revenue | 100], is taken as the header (line 187), so the only data
    row is [Growth] with value ["12 %"] under the column named ["100"].
    [clean_tables] called on that table alone with [first_run = True] writes
    the same. *)
Theorem C1_q1_report_one_record :
  (main "reports" [("q1.html", [q1_report])] empty_store).1 = Ok tt
  ∧ read_file
      (files (main "reports" [("q1.html", [q1_report])] empty_store).2)
      "final_result.csv"
    = [HeaderLine five_columns; RecordLine q1_record]
  ∧ files (clean_tables 0 q1_path true
             {| heap := [pd.new_DataFrame q1_report]; files := [] |}).2
    = [("final_result.csv", [HeaderLine five_columns; RecordLine q1_record])].
Proof. repeat split; vm_compute; reflexivity. Qed.

(** ** The single-value-row repair *)

(** C2 fails on the code by a slip: line 183 drops the row labelled by the
    stale loop variable [i] of line 146, the last row, not the single-value
    row.  On [units_table] the frame reaches line 168 as [units_compacted]
    with [i = 3]; the code keeps the merged row [a | 1 | U] as the header
    and loses the row [y | c | 3], where the step as specified takes the
    header from [x | b | 2] and keeps [y | c | 3] as data. *)
Theorem C2_repair_drops_row_of_stale_index :
  ((df ← drop_empty 0; '(_, df) ← extract_title df;
    i ← merge_annotations df; df ← compact df;
    v ← deref df; mret (i, v))
     {| heap := [pd.new_DataFrame units_table]; files := [] |}).1
  = Ok (Some 3, units_compacted)
  ∧ ((df ← single_value_repair 0 (Some 3); deref df)
       {| heap := [units_compacted]; files := [] |}).1
    = Ok {| columns := [Pos 0; Pos 1; Pos 2];
            rows := [(0, [Text "a"; Text "1"; Text "U"]);
                     (1, [Text "x"; Text "b"; Text "2"])] |}
  ∧ Spec.single_value_repair units_compacted
    = Ok {| columns := [Pos 0; Pos 1; Pos 2];
            rows := [(0, [Text "x"; Text "b"; Text "2"]);
                     (1, [Text "y"; Text "c"; Text "3"])] |}
  ∧ records_of
      (read_file
         (files (main "reports" [("units.html", [units_table])] empty_store).2)
         "final_result.csv")
    = [ {| filename := "units.html"; label := Text "x"; tablename := "T";
           column_name := Name (Text "1"); value := Text "b" |};
        {| filename := "units.html"; label := Text "x"; tablename := "T";
           column_name := Name (Text "U"); value := Text "2" |} ].
Proof. repeat split; vm_compute; reflexivity. Qed.

(** ** The title *)

Lemma extract_title_run st df v c :
  heap st !! df = Some v → iloc.get v 0 1 = Ok c →
  extract_title df st =
  let title := if notna c && negb (cell_is EmptyString c)
               then str c else "No Title" in
  if bool_decide (title ≠ "No Title")
  then (Ok (title, length (heap st)),
        {| heap := heap st ++ [pd.reset_index (pd.iloc_from_1 v)];
           files := files st |})
  else (Ok (title, df), st).
Proof.
  intros L E. unfold extract_title, title_extraction.
  rewrite !bind_run. erewrite reads_run by done. rewrite E. cbv beta iota zeta.
  rewrite ret_run. cbv beta iota.
  case_bool_decide.
  - rewrite bind_run. erewrite fresh_run by done. done.
  - done.
Qed.

(** C4, as the code has it.  For a frame that has a cell at row 0,
    column 1: when the cell holds text that is neither empty nor the
    sentinel ["No Title"] itself, the title is that text and the frame goes
    on without its row 0 (rows re-indexed); when the cell is absent or
    empty, or reads ["No Title"], the title is ["No Title"] and the frame
    goes on as it is, row 0 included. *)
Theorem C4_title_and_row_0 (st : store) (df : ref) (v : DataFrame) (c : cell) :
  heap st !! df = Some v →
  iloc.get v 0 1 = Ok c →
  (∀ t, c = Text t → t ≠ EmptyString → t ≠ "No Title" →
     ∃ df' st', extract_title df st = (Ok (t, df'), st')
                ∧ heap st' !! df' = Some (pd.reset_index (pd.iloc_from_1 v))
                ∧ rows (pd.reset_index (pd.iloc_from_1 v))
                  = imap (λ i (r : nat * list cell), (i, r.2)) (tail (rows v)))
  ∧ (isna c = true ∨ c = Text EmptyString ∨ c = Text "No Title" →
     extract_title df st = (Ok ("No Title", df), st)).
Proof.
  intros L E. rewrite (extract_title_run st df v c L E). split.
  - intros t -> Ht Hs. simpl.
    assert (String.eqb t EmptyString = false) as -> by by apply String.eqb_neq.
    simpl. rewrite bool_decide_true by done.
    eexists _, _. split; [reflexivity|]. simpl. split; [|done].
    by rewrite lookup_app_r, Nat.sub_diag.
  - intros [Hc|[->| ->]]; [|done..].
    by destruct c.
Qed.

Lemma C4_title_and_row_0_witness :
  (∀ t, Text "Q1 Report" = Text t → t ≠ EmptyString → t ≠ "No Title" →
     ∃ df' st',
       extract_title 0
         {| heap := [pd.replace_blank (pd.new_DataFrame q1_report)];
            files := [] |} = (Ok (t, df'), st')
       ∧ heap st' !! df'
         = Some (pd.reset_index
                   (pd.iloc_from_1 (pd.replace_blank (pd.new_DataFrame q1_report))))
       ∧ rows (pd.reset_index
                 (pd.iloc_from_1 (pd.replace_blank (pd.new_DataFrame q1_report))))
         = imap (λ i (r : nat * list cell), (i, r.2))
             (tail (rows (pd.replace_blank (pd.new_DataFrame q1_report)))))
  ∧ (isna (Text "Q1 Report") = true ∨ Text "Q1 Report" = Text EmptyString
     ∨ Text "Q1 Report" = Text "No Title" →
     extract_title 0
       {| heap := [pd.replace_blank (pd.new_DataFrame q1_report)]; files := [] |}
     = (Ok ("No Title", 0),
        {| heap := [pd.replace_blank (pd.new_DataFrame q1_report)];
           files := [] |})).
Proof.
  apply (C4_title_and_row_0
           {| heap := [pd.replace_blank (pd.new_DataFrame q1_report)];
              files := [] |} 0
           (pd.replace_blank (pd.new_DataFrame q1_report)) (Text "Q1 Report")).
  - reflexivity.
  - reflexivity.
Defined.

(** C4 as stated fails twice.  A title cell that reads ["No Title"] is
    non-empty text, yet row 0 is kept: [extract_title] returns the frame it
    was given.  And a frame with one column has no cell at row 0, column 1:
    there is no title at all, [title_extraction] raises [IndexError]. *)
Lemma C4_counterexample :
  iloc.get (pd.new_DataFrame no_title_table) 0 1 = Ok (Text "No Title")
  ∧ extract_title 0 {| heap := [pd.new_DataFrame no_title_table]; files := [] |}
    = (Ok ("No Title", 0),
       {| heap := [pd.new_DataFrame no_title_table]; files := [] |})
  ∧ rows (pd.new_DataFrame no_title_table)
    = [(0, [Text "a"; Text "No Title"]); (1, [Text "b"; Text "c"])]
  ∧ extract_title 0
      {| heap := [pd.new_DataFrame one_column_table]; files := [] |}
    = (Raise IndexError,
       {| heap := [pd.new_DataFrame one_column_table]; files := [] |}).
Proof. repeat split; vm_compute; reflexivity. Qed.

(** ** The percent rule *)

Lemma merge_pair_percent row j c c1 :
  row !! j = Some c → row !! (j + 1) = Some c1 →
  stripped_is "%" c1 || stripped_is "%)" c1 = true →
  Val.merge_pair row j =
  <[j + 1 := NaN]>
    (<[j := Text (Py.replace "(" "-" (str (cleared c) +:+ " %"))]> row).
Proof.
  intros Hc Hc1 Hp. unfold Val.merge_pair, cleared. rewrite Hc, Hc1, Hp.
  cbv zeta. do 3 f_equal.
  destruct (cell_is EmptyString c).
  - done.
  - destruct (Py.contains "(" _) eqn:E; [done|]. by rewrite replace_absent.
Qed.

(** C5.  When the loops of lines 146-160 visit the pair of columns
    [(j, j+1)] of row [i] and cell [j+1] is exactly ["%"] or ["%)"], cell [j]
    becomes its text (as lines 149 and 152 left it) followed by [" %"], with
    every ["("] replaced by ["-"], cell [j+1] becomes absent, and nothing
    else changes; a cell [j] holding text other than a dollar sign is still
    that text when the suffix is added.  The row
    [Decline | (5 | %)] comes out of the loops as [Decline | -5 % | absent],
    and of the whole script as a record of value ["-5 %"]. *)
Theorem C5_percent_merge (st : store) (df : ref) (v : DataFrame)
    (i j l : nat) (row : list cell) (c c1 : cell) :
  heap st !! df = Some v →
  rows v !! i = Some (l, row) →
  row !! j = Some c →
  row !! (j + 1) = Some c1 →
  c1 = Text "%" ∨ c1 = Text "%)" →
  (∃ row',
      merge_cell df i j st = (Ok tt, upd st df (with_row v i (l, row')))
      ∧ row' !! j = Some (Text (Py.replace "(" "-" (str (cleared c) +:+ " %")))
      ∧ row' !! (j + 1) = Some NaN
      ∧ ∀ k, k ≠ j → k ≠ j + 1 → row' !! k = row !! k)
  ∧ (∀ t, c = Text t → t ≠ EmptyString → stripped_is "$" c = false →
       cleared c = c)
  ∧ merge_annotations 0
      {| heap := [ {| columns := [Pos 0; Pos 1; Pos 2];
                      rows := [(0, [Text "Decline"; Text "(5"; Text "%)"])] |} ];
         files := [] |}
    = (Ok (Some 0),
       {| heap := [ {| columns := [Pos 0; Pos 1; Pos 2];
                       rows := [(0, [Text "Decline"; Text "-5 %"; NaN])] |} ];
          files := [] |})
  ∧ records_of
      (read_file
         (files (main "reports" [("d.html", [decline_table])] empty_store).2)
         "final_result.csv")
    = [ {| filename := "d.html"; label := Text "Decline"; tablename := "T";
           column_name := Name (Text "v"); value := Text "-5 %" |} ].
Proof.
  intros L Hi Hc Hc1 Hp.
  assert (Hj : j + 1 < length row) by by eapply lookup_lt_Some.
  assert (Ht : stripped_is "%" c1 || stripped_is "%)" c1 = true)
    by by destruct Hp as [-> | ->].
  split; [|split; [|split]].
  - exists (Val.merge_pair row j). split; [by apply merge_cell_run|].
    rewrite (merge_pair_percent row j c c1) by done.
    split; [|split].
    + rewrite list_lookup_insert_ne by lia.
      apply list_lookup_insert_eq. lia.
    + apply list_lookup_insert_eq. rewrite length_insert. lia.
    + intros k Hk Hk'. by rewrite !list_lookup_insert_ne by done.
  - intros t -> Ht' Hd. unfold cleared. rewrite Hd. simpl.
    by apply String.eqb_neq in Ht' as ->.
  - vm_compute. reflexivity.
  - vm_compute. reflexivity.
Qed.

Lemma C5_percent_merge_witness :
  (∃ row',
      merge_cell 0 0 1
        {| heap := [ {| columns := [Pos 0; Pos 1; Pos 2];
                        rows := [(0, [Text "Growth"; Text "12"; Text "%"])] |} ];
           files := [] |}
      = (Ok tt,
         upd {| heap := [ {| columns := [Pos 0; Pos 1; Pos 2];
                             rows := [(0, [Text "Growth"; Text "12"; Text "%"])] |} ];
                files := [] |} 0
             (with_row {| columns := [Pos 0; Pos 1; Pos 2];
                          rows := [(0, [Text "Growth"; Text "12"; Text "%"])] |}
                       0 (0, row')))
      ∧ row' !! 1 = Some (Text "12 %")
      ∧ row' !! 2 = Some NaN
      ∧ ∀ k, k ≠ 1 → k ≠ 2 →
          row' !! k = [Text "Growth"; Text "12"; Text "%"] !! k).
Proof.
  exact (proj1 (C5_percent_merge
           {| heap := [ {| columns := [Pos 0; Pos 1; Pos 2];
                           rows := [(0, [Text "Growth"; Text "12"; Text "%"])] |} ];
              files := [] |} 0
           {| columns := [Pos 0; Pos 1; Pos 2];
              rows := [(0, [Text "Growth"; Text "12"; Text "%"])] |}
           0 1 0 [Text "Growth"; Text "12"; Text "%"] (Text "12") (Text "%")
           eq_refl eq_refl eq_refl eq_refl (or_introl eq_refl))).
Defined.

(** ** One pass over a row *)

Lemma merge_pair_lookup_ne row j k :
  k ≠ j → k ≠ j + 1 → Val.merge_pair row j !! k = row !! k.
Proof.
  intros Hk Hk'. unfold Val.merge_pair.
  repeat case_match; by rewrite ?list_lookup_insert_ne by done.
Qed.

Lemma merge_pair_right_kept row j c1 :
  row !! (j + 1) = Some c1 → percent_token c1 = false →
  Val.merge_pair row j !! (j + 1) = Some c1.
Proof.
  intros Hc1 Hp. unfold Val.merge_pair, percent_token in *. rewrite Hc1.
  destruct (row !! j); [|done]. rewrite Hp.
  by rewrite list_lookup_insert_ne by lia.
Qed.

Lemma merge_fold_lookup_ne x js : ∀ row,
  Forall (λ k, x ≠ k ∧ x ≠ k + 1) js →
  foldl Val.merge_pair row js !! x = row !! x.
Proof.
  induction js as [|k js IH]; intros row Hjs; [done|].
  apply Forall_cons in Hjs as [[??] Hjs]. simpl.
  by rewrite IH, merge_pair_lookup_ne.
Qed.

Lemma merge_fold_before j c c1 js : ∀ row,
  Forall (λ k, k < j) js →
  percent_token c = false →
  row !! j = Some c → row !! (j + 1) = Some c1 →
  foldl Val.merge_pair row js !! j = Some c
  ∧ foldl Val.merge_pair row js !! (j + 1) = Some c1.
Proof.
  induction js as [|k js IH]; intros row Hjs Hp Hc Hc1; [done|].
  apply Forall_cons in Hjs as [Hk Hjs]. simpl. apply IH; try done.
  - destruct (decide (k + 1 = j)) as [<-|].
    + by apply merge_pair_right_kept.
    + rewrite merge_pair_lookup_ne by lia. done.
  - rewrite merge_pair_lookup_ne by lia. done.
Qed.

Lemma merge_fold_length js : ∀ row,
  length (foldl Val.merge_pair row js) = length row.
Proof.
  induction js as [|k js IH]; intros row; [done|].
  simpl. by rewrite IH, merge_pair_length.
Qed.

(** After the whole pass, a cell followed by a percent sign holds its text
    with the suffix, unless it was a percent sign itself. *)
Lemma merge_row_percent row j c c1 :
  row !! j = Some c → row !! (j + 1) = Some c1 →
  percent_token c = false → percent_token c1 = true →
  Val.merge_row row !! j
  = Some (Text (Py.replace "(" "-" (str (cleared c) +:+ " %"))).
Proof.
  intros Hc Hc1 Hp Hp1.
  assert (Hj : j + 1 < length row) by by eapply lookup_lt_Some.
  unfold Val.merge_row, range.
  replace (length row - 1) with (j + S (length row - 1 - S j)) by lia.
  rewrite seq_app, foldl_app. simpl.
  destruct (merge_fold_before j c c1 (seq 0 j) row) as [Hc' Hc1']; try done.
  { apply Forall_forall. intros k [_ ?]%elem_of_seq. lia. }
  rewrite merge_fold_lookup_ne.
  - rewrite (merge_pair_percent _ j c c1) by done.
    rewrite list_lookup_insert_ne by lia.
    apply list_lookup_insert_eq. rewrite merge_fold_length. lia.
  - apply Forall_forall. intros k [? _]%elem_of_seq. lia.
Qed.

(** ** Where [None] can be *)

Lemma none_trailing_padded (r : list string) n :
  none_trailing ((Text <$> r) ++ replicate n PyNone).
Proof.
  induction r as [|s r IH]; simpl.
  - induction n as [|n IH]; simpl; [done|]. split; [|done].
    intros _. by apply Forall_replicate.
  - split; [done|apply IH].
Qed.

Lemma none_trailing_fmap (f : cell → cell) row :
  f PyNone = PyNone → (∀ c, f c = PyNone → c = PyNone) →
  none_trailing row → none_trailing (f <$> row).
Proof.
  intros Hf Hinv. induction row as [|c row IH]; simpl; [done|].
  intros [Hc Hrow]. split; [|by apply IH].
  intros Hfc. apply Forall_fmap. eapply Forall_impl; [by apply Hc, Hinv|].
  by intros c' ->.
Qed.

Lemma all_none_select mask : ∀ row,
  Forall (λ c, c = PyNone) row → Forall (λ c, c = PyNone) (pd.select mask row).
Proof.
  induction mask as [|b mask IH]; intros [|c row] H; simpl; try done.
  apply Forall_cons in H as [Hc Hrow]. destruct b; [constructor|]; auto.
Qed.

Lemma none_trailing_select mask : ∀ row,
  none_trailing row → none_trailing (pd.select mask row).
Proof.
  induction mask as [|b mask IH]; intros [|c row]; simpl; try done.
  intros [Hc Hrow]. destruct b; simpl; [|by apply IH].
  split; [|by apply IH]. intros ->. by apply all_none_select, Hc.
Qed.

Lemma none_trailing_absent row : ∀ j c c1,
  none_trailing row →
  row !! j = Some c → isna c = true →
  row !! (j + 1) = Some c1 → notna c1 = true →
  c = NaN.
Proof.
  induction row as [|c0 row IH]; intros j c c1 Hnt Hc Hna Hc1 Hp; [done|].
  destruct Hnt as [H0 Hnt]. destruct j as [|j]; simpl in *.
  - simplify_eq. destruct c as [t| |]; [done|done|].
    specialize (H0 eq_refl).
    apply (proj1 (Forall_lookup _ _) H0 0) in Hc1. by subst c1.
  - by eapply IH.
Qed.

Lemma rows_none_trailing_new_DataFrame table_data :
  rows_none_trailing (pd.new_DataFrame table_data).
Proof.
  unfold rows_none_trailing, pd.new_DataFrame; simpl.
  apply Forall_forall. intros r Hr.
  apply list_elem_of_lookup in Hr as [i Hi].
  rewrite list_lookup_imap in Hi.
  destruct (table_data !! i) as [row|]; simplify_eq/=.
  apply none_trailing_padded.
Qed.

Lemma rows_none_trailing_drop_empty v :
  rows_none_trailing v → rows_none_trailing (Val.drop_empty v).
Proof.
  unfold rows_none_trailing, Val.drop_empty, pd.dropna_rows,
    pd.dropna_columns, pd.replace_blank; simpl. intros H.
  apply Forall_forall. intros r [_ Hr]%list_elem_of_filter. revert r Hr.
  apply Forall_forall, Forall_fmap, Forall_fmap.
  eapply Forall_impl; [done|]. intros [l row] Hrow; simpl in *.
  apply none_trailing_select, none_trailing_fmap; [done| |done].
  intros [t| |]; [|done..]. simpl. by destruct (String.eqb t _).
Qed.

Lemma rows_none_trailing_extract_title v title v' :
  rows_none_trailing v → Val.extract_title v = Ok (title, v') →
  rows_none_trailing v'.
Proof.
  unfold Val.extract_title. intros H E.
  destruct (Val.title_extraction v); simplify_eq/=.
  case_bool_decide; [|done].
  unfold rows_none_trailing, pd.reset_index, pd.iloc_from_1 in *; simpl.
  apply Forall_forall. intros r Hr.
  apply list_elem_of_lookup in Hr as [i Hi].
  rewrite list_lookup_imap in Hi.
  destruct (tail (rows v) !! i) as [r'|] eqn:E; simplify_eq/=.
  rewrite lookup_tail in E.
  by eapply (Forall_lookup_1 _ _ _ _ H E).
Qed.

(** ** What compaction keeps *)

Lemma select_elem {A} (mask : list bool) : ∀ (xs : list A) p x,
  mask !! p = Some true → xs !! p = Some x → x ∈ pd.select mask xs.
Proof.
  induction mask as [|b mask IH]; intros [|y xs] p x Hm Hx; try done.
  destruct p as [|p]; simpl in *.
  - simplify_eq. apply list_elem_of_here.
  - destruct b; [apply list_elem_of_further|]; by eapply IH.
Qed.

Lemma shift_right_keeps row c :
  c ∈ row → notna c = true → c ∈ shift_right row.
Proof.
  intros Hc Hn. unfold shift_right, pd.dropna_tolist.
  apply elem_of_app. right. by apply list_elem_of_filter.
Qed.

Lemma compact_keeps v i l row c :
  rectangular v → rows v !! i = Some (l, row) →
  c ∈ row → notna c = true →
  ∃ row', rows (Val.compact v) !! i = Some (l, row') ∧ c ∈ row'.
Proof.
  intros Hrect Hi Hc Hn.
  assert (Hlen : length row = length (columns v))
    by apply (Forall_lookup_1 _ _ _ _ Hrect Hi).
  unfold Val.compact, pd.apply_rows.
  destruct (rows v) as [|r0 rs] eqn:Er; [done|].
  destruct (columns v) as [|x0 xs] eqn:Ec.
  { destruct row; [by apply elem_of_nil in Hc|done]. }
  rewrite <- Er, <- Ec in *. clear Er Ec r0 rs x0 xs.
  unfold pd.dropna_columns; simpl.
  rewrite list_lookup_fmap, list_lookup_fmap, Hi. simpl.
  eexists. split; [done|].
  apply (shift_right_keeps row c Hc) in Hn as Hin.
  apply list_elem_of_lookup in Hin as [p Hp].
  apply (select_elem _ _ p); [|done].
  assert (p < length (columns v)).
  { rewrite <- Hlen, <- shift_right_length. by eapply lookup_lt_Some. }
  rewrite list_lookup_fmap, length_fmap, length_seq, lookup_seq_lt by done.
  simpl. f_equal. unfold pd.column_has_value. simpl.
  apply existsb_exists. exists (l, shift_right row). split.
  - apply List.in_map_iff. exists (l, row). split; [done|].
    apply list_elem_of_In. by eapply list_elem_of_lookup_2.
  - simpl. by rewrite Hp.
Qed.

(** ** An absent cell before a percent sign *)

(** C10.  Take any table as [pd.DataFrame] builds it from the cell texts,
    at the point where the merge loops start (after lines 130-142).  If in
    some row cell [j] is absent and cell [j+1] is exactly ["%"] or ["%)"],
    the loops leave the text ["nan %"] in cell [j] of that row, and the
    compaction of lines 164-166 keeps that text in the row as a value. *)
Theorem C10_absent_cell_before_percent (table_data : list (list string))
    (st : store) (df_origin : ref) (title : string) (df : ref) (st1 : store)
    (v : DataFrame) (i l j : nat) (row : list cell) (c c1 : cell) :
  heap st !! df_origin = Some (pd.new_DataFrame table_data) →
  (df ← drop_empty df_origin; extract_title df) st = (Ok (title, df), st1) →
  heap st1 !! df = Some v →
  rows v !! i = Some (l, row) →
  row !! j = Some c → isna c = true →
  row !! (j + 1) = Some c1 → c1 = Text "%" ∨ c1 = Text "%)" →
  ∃ st2 row2,
    merge_annotations df st1 = (Ok (last (range (length (rows v)))), st2)
    ∧ (∃ v2, heap st2 !! df = Some v2 ∧ rows v2 !! i = Some (l, row2))
    ∧ row2 !! j = Some (Text "nan %")
    ∧ ∃ df3 st3 v3 row3,
        compact df st2 = (Ok df3, st3)
        ∧ heap st3 !! df3 = Some v3
        ∧ rows v3 !! i = Some (l, row3)
        ∧ Text "nan %" ∈ row3.
Proof.
  intros L E Lv Hi Hc Hna Hc1 Hp.
  assert (F : framed (heap st) (files st) st) by done.
  assert (R : refines (heap st) (files st)
                (df ← drop_empty df_origin; extract_title df)
                (Val.extract_title (Val.drop_empty (pd.new_DataFrame table_data)))
                (λ a b st', a.1 = b.1 ∧ owns (heap st) (files st) st' a.2 b.2)
                st).
  { eapply refines_bind_ok; [by apply drop_empty_refines|].
    intros a st' O. by apply extract_title_refines. }
  destruct (refines_Ok_inv _ _ _ _ _ _ _ _ R E) as ([t v'] & Ev & _ & O).
  simpl in O. assert (v' = v) as ->.
  { apply owns_lookup in O. congruence. }
  assert (Hrect : rectangular v).
  { eapply rectangular_extract_title; [|done].
    apply rectangular_drop_empty, rectangular_new_DataFrame. }
  assert (Hnt : none_trailing row).
  { assert (rows_none_trailing v) as Hall.
    { eapply rows_none_trailing_extract_title; [|done].
      apply rows_none_trailing_drop_empty, rows_none_trailing_new_DataFrame. }
    apply (Forall_lookup_1 _ _ _ _ Hall Hi). }
  assert (c = NaN) as ->.
  { eapply (none_trailing_absent row j c c1); try done.
    by destruct Hp as [-> | ->]. }
  assert (Hrow2 : Val.merge_row row !! j = Some (Text "nan %")).
  { rewrite (merge_row_percent row j NaN c1); try done.
    by destruct Hp as [-> | ->]. }
  assert (Hi2 : rows (Val.merge_annotations v) !! i = Some (l, Val.merge_row row)).
  { simpl. by rewrite list_lookup_fmap, Hi. }
  assert (O2 : owns (heap st) (files st) (upd st1 df (Val.merge_annotations v))
                 df (Val.merge_annotations v)) by by eapply owns_assign.
  exists (upd st1 df (Val.merge_annotations v)), (Val.merge_row row).
  split; [by apply merge_annotations_run|].
  split; [exists (Val.merge_annotations v); split;
          [by eapply owns_lookup|done]|].
  split; [done|].
  destruct (compact_refines _ _ _ _ _ O2) as (df3 & st3 & Ec & O3).
  destruct (compact_keeps (Val.merge_annotations v) i l (Val.merge_row row)
              (Text "nan %")) as (row3 & Hi3 & Hin); try done.
  { by apply rectangular_merge_annotations. }
  { by eapply list_elem_of_lookup_2. }
  exists df3, st3, (Val.compact (Val.merge_annotations v)), row3.
  split; [done|]. split; [by eapply owns_lookup|]. done.
Qed.

Lemma C10_absent_cell_before_percent_witness :
  ∃ st2 row2,
    merge_annotations 3
      ((df ← drop_empty 0; extract_title df)
         {| heap := [pd.new_DataFrame gap_table]; files := [] |}).2
    = (Ok (last (range (length [(0, [Text "x"; NaN; Text "%"])]))), st2)
    ∧ (∃ v2, heap st2 !! 3 = Some v2 ∧ rows v2 !! 0 = Some (0, row2))
    ∧ row2 !! 1 = Some (Text "nan %")
    ∧ ∃ df3 st3 v3 row3,
        compact 3 st2 = (Ok df3, st3)
        ∧ heap st3 !! df3 = Some v3
        ∧ rows v3 !! 0 = Some (0, row3)
        ∧ Text "nan %" ∈ row3.
Proof.
  apply (C10_absent_cell_before_percent gap_table
           {| heap := [pd.new_DataFrame gap_table]; files := [] |} 0 "T" 3
           ((df ← drop_empty 0; extract_title df)
              {| heap := [pd.new_DataFrame gap_table]; files := [] |}).2
           {| columns := [Pos 0; Pos 1; Pos 2];
              rows := [(0, [Text "x"; NaN; Text "%"])] |}
           0 0 1 [Text "x"; NaN; Text "%"] NaN (Text "%")).
  - reflexivity.
  - vm_compute. reflexivity.
  - vm_compute. reflexivity.
  - reflexivity.
  - reflexivity.
  - reflexivity.
  - reflexivity.
  - left. reflexivity.
Defined.

(** * Further properties of the code *)

(** ** Compaction of a row *)

(** X7.  The two lambdas of lines 164 and 190 keep the length of a row and
    its present cells in their order; shifting left after shifting right is
    shifting left, and the other way round; shifting left twice is shifting
    left once. *)
Theorem X7_compaction_keeps_values (row : list cell) :
  pd.dropna_tolist (shift_right row) = pd.dropna_tolist row
  ∧ pd.dropna_tolist (shift_left row) = pd.dropna_tolist row
  ∧ length (shift_right row) = length row
  ∧ length (shift_left row) = length row
  ∧ shift_left (shift_right row) = shift_left row
  ∧ shift_right (shift_left row) = shift_right row
  ∧ shift_left (shift_left row) = shift_left row.
Proof.
  assert (Hr : pd.dropna_tolist (shift_right row) = pd.dropna_tolist row).
  { unfold shift_right.
    by rewrite dropna_tolist_app, dropna_tolist_replicate_NaN, dropna_tolist_idemp. }
  assert (Hl : pd.dropna_tolist (shift_left row) = pd.dropna_tolist row).
  { unfold shift_left.
    rewrite dropna_tolist_app, dropna_tolist_replicate_NaN, dropna_tolist_idemp.
    by rewrite app_nil_r. }
  assert (Hsr : pd.isna_sum (shift_right row) = pd.isna_sum row).
  { unfold shift_right.
    rewrite isna_sum_app, isna_sum_replicate_NaN, isna_sum_dropna. lia. }
  assert (Hsl : pd.isna_sum (shift_left row) = pd.isna_sum row).
  { unfold shift_left.
    rewrite isna_sum_app, isna_sum_replicate_NaN, isna_sum_dropna. lia. }
  repeat split; try done.
  - apply shift_right_length.
  - apply shift_left_length.
  - unfold shift_left at 1. by rewrite Hr, Hsr.
  - unfold shift_right at 1. by rewrite Hl, Hsl.
  - unfold shift_left at 1. by rewrite Hl, Hsl.
Qed.

(** ** Extraction *)

Lemma for_acc_extract (tables : list (list (list string)))
    (file_path : Path) : ∀ (all_tables : list (ref * Path)) st,
  for_acc tables all_tables (λ all_tables table_data,
    df ← new (pd.new_DataFrame table_data);
    mret (all_tables ++ [(df, file_path)])) st
  = (Ok (all_tables
         ++ imap (λ k (_ : list (list string)), (length (heap st) + k, file_path))
                 tables),
     {| heap := heap st ++ (pd.new_DataFrame <$> tables);
        files := files st |}).
Proof.
  induction tables as [|t tables IH]; intros all_tables st.
  - simpl. rewrite !app_nil_r. by destruct st.
  - cbn [for_acc]. rewrite !bind_run. unfold new. cbv beta iota.
    rewrite ret_run. cbv beta iota.
    rewrite IH. cbn [heap files].
    rewrite <- !(assoc (++)). cbn [imap fmap list_fmap app].
    rewrite Nat.add_0_r. do 4 f_equal.
    apply imap_ext. intros k x _. cbn. rewrite length_app. cbn.
    f_equal. lia.
Qed.

(** X4.  [extract_data] never fails.  It makes one new frame per table of
    the file, in order, each [pd.DataFrame(table_data)], and appends them
    with the path of the file to [all_tables]; the entries [all_tables]
    already had stay in front, the frames already in the heap and the files
    are untouched. *)
Theorem X4_extract_data_appends (tables : list (list (list string)))
    (file_path : Path) (all_tables : list (ref * Path)) (st : store) :
  extract_data tables file_path all_tables st
  = (Ok (all_tables
         ++ imap (λ k (_ : list (list string)), (length (heap st) + k, file_path))
                 tables),
     {| heap := heap st ++ (pd.new_DataFrame <$> tables);
        files := files st |}).
Proof. apply for_acc_extract. Qed.

(** ** Computations that only read *)

Lemma readonly_ret {A} (a : A) : readonly (mret a).
Proof. done. Qed.

Lemma readonly_lift {A} (o : outcome A) : readonly (lift o).
Proof. done. Qed.

Lemma readonly_bind {A B} (m : M A) (k : A → M B) :
  readonly m → (∀ a, readonly (k a)) → readonly (m ≫= k).
Proof.
  intros Hm Hk st. rewrite bind_run. specialize (Hm st).
  destruct (m st) as [[a|e] st']; simpl in *; subst; [apply Hk|done].
Qed.

Lemma readonly_reads {A} r (f : DataFrame → outcome A) : readonly (reads r f).
Proof.
  intros st. unfold reads, deref. rewrite bind_run.
  by destruct (heap st !! r).
Qed.

Lemma readonly_for_acc {A B} (xs : list A) (body : B → A → M B) : ∀ acc,
  (∀ acc x, readonly (body acc x)) → readonly (for_acc xs acc body).
Proof.
  induction xs as [|x xs IH]; intros acc Hbody; [done|].
  cbn [for_acc]. apply readonly_bind; [done|]. intros. by apply IH.
Qed.

Lemma readonly_title_extraction df : readonly (title_extraction df).
Proof.
  apply readonly_bind; [apply readonly_reads|]. intros. apply readonly_ret.
Qed.

Lemma readonly_structured_rows file_name title df :
  readonly (structured_rows file_name title df).
Proof.
  apply readonly_bind; [apply readonly_reads|]. intros n.
  apply readonly_for_acc. intros acc row_idx.
  apply readonly_bind; [apply readonly_reads|]. intros label.
  apply readonly_bind; [apply readonly_reads|]. intros m.
  apply readonly_for_acc. intros acc' col_idx.
  apply readonly_bind; [apply readonly_reads|]. intros column_name.
  apply readonly_bind; [apply readonly_reads|]. intros value.
  apply readonly_ret.
Qed.

(** ** The title *)

(** X1.  [title_extraction] changes nothing.  It returns a title exactly
    when the frame has a cell at row 0, column 1, and that title is never
    the empty string; otherwise, when the frame has no row or its rows have
    fewer than two cells, it raises [IndexError]. *)
Theorem X1_title_extraction_bounds (st : store) (df : ref) (v : DataFrame) :
  heap st !! df = Some v →
  (title_extraction df st).2 = st
  ∧ match (title_extraction df st).1 with
    | Ok title =>
        title ≠ EmptyString
        ∧ ∃ r c, rows v !! 0 = Some r ∧ r.2 !! 1 = Some c
    | Raise e =>
        e = IndexError
        ∧ (rows v = [] ∨ ∃ r, rows v !! 0 = Some r ∧ length r.2 < 2)
    end.
Proof.
  intros L. split; [apply readonly_title_extraction|].
  unfold title_extraction. rewrite bind_run.
  erewrite reads_run by done. unfold iloc.get.
  destruct (rows v) as [|r rs] eqn:Er; simpl; [by auto|].
  destruct (r.2 !! 1) as [c|] eqn:Ec; simpl.
  - split; [|by eauto].
    destruct c as [t| |]; simpl; [|done..].
    destruct (String.eqb t EmptyString) eqn:Et; simpl; [done|].
    by apply String.eqb_neq.
  - split; [done|]. right. exists r. split; [done|].
    apply lookup_ge_None in Ec. lia.
Qed.

Lemma X1_title_extraction_bounds_witness :
  (title_extraction 0 {| heap := [pd.new_DataFrame one_column_table];
                         files := [] |}).2
  = {| heap := [pd.new_DataFrame one_column_table]; files := [] |}
  ∧ match (title_extraction 0
             {| heap := [pd.new_DataFrame one_column_table]; files := [] |}).1
    with
    | Ok title =>
        title ≠ EmptyString
        ∧ ∃ r c, rows (pd.new_DataFrame one_column_table) !! 0 = Some r
                 ∧ r.2 !! 1 = Some c
    | Raise e =>
        e = IndexError
        ∧ (rows (pd.new_DataFrame one_column_table) = []
           ∨ ∃ r, rows (pd.new_DataFrame one_column_table) !! 0 = Some r
                  ∧ length r.2 < 2)
    end.
Proof.
  apply (X1_title_extraction_bounds
           {| heap := [pd.new_DataFrame one_column_table]; files := [] |} 0
           (pd.new_DataFrame one_column_table)).
  reflexivity.
Defined.

(** ** The records of a frame *)

Lemma iloc_get_row v i j l row :
  rows v !! i = Some (l, row) →
  iloc.get v i j = match row !! j with
                   | Some c => Ok c
                   | None => Raise IndexError
                   end.
Proof. intros H. unfold iloc.get. by rewrite H. Qed.

Lemma inner_records file_name title (v : DataFrame) row_idx l row label n :
  rows v !! row_idx = Some (l, row) →
  ∀ k acc, k + n ≤ length (columns v) → k + n ≤ length row →
  Val.for_acc (seq k n) acc (λ structured_data col_idx,
    column_name ← match columns v !! col_idx with
                   | Some l => Ok l
                   | None => Raise IndexError
                   end;
    value ← iloc.get v row_idx col_idx;
    Ok (structured_data ++
        [{| filename := file_name; label := label; tablename := title;
            column_name := column_name; value := value |}]))
  = Ok (acc ++
        ((λ cv : col_label * cell,
            {| filename := file_name; label := label; tablename := title;
               column_name := cv.1; value := cv.2 |})
         <$> zip (take n (drop k (columns v))) (take n (drop k row)))).
Proof.
  intros Hrow. induction n as [|n IH]; intros k acc Hc Hr.
  - simpl. by rewrite app_nil_r.
  - cbn [seq Val.for_acc].
    destruct (lookup_lt_is_Some_2 (columns v) k) as [c Hck]; [lia|].
    destruct (lookup_lt_is_Some_2 row k) as [x Hxk]; [lia|].
    rewrite Hck, (iloc_get_row v row_idx k l row Hrow), Hxk.
    cbn [mbind outcome_bind].
    rewrite IH by lia.
    rewrite (drop_S _ _ _ Hck), (drop_S _ _ _ Hxk). cbn [take zip zip_with fmap list_fmap].
    by rewrite <- (assoc (++)).
Qed.

Lemma outer_records file_name title (v : DataFrame) todo : ∀ finished acc,
  rows v = finished ++ todo →
  Forall (λ r : nat * list cell, length r.2 = length (columns v)) todo →
  columns v ≠ [] →
  Val.for_acc (seq (length finished) (length todo)) acc
    (λ structured_data row_idx,
      label ← iloc.get v row_idx 0;
      Val.for_acc (seq 1 (length (columns v) - 1)) structured_data
        (λ structured_data col_idx,
          column_name ← match columns v !! col_idx with
                         | Some l => Ok l
                         | None => Raise IndexError
                         end;
          value ← iloc.get v row_idx col_idx;
          Ok (structured_data ++
              [{| filename := file_name; label := label; tablename := title;
                  column_name := column_name; value := value |}])))
  = Ok (acc ++
        mjoin ((λ r : nat * list cell,
                  records_of_row file_name title (columns v) r.2) <$> todo)).
Proof.
  induction todo as [|[l row] todo IH]; intros finished acc Hrows Hrect Hcols.
  - simpl. by rewrite app_nil_r.
  - apply Forall_cons in Hrect as [Hlen Hrect]. cbn [snd] in Hlen.
    cbn [length seq Val.for_acc].
    assert (Hi : rows v !! length finished = Some (l, row)).
    { rewrite Hrows. by apply list_lookup_middle. }
    destruct row as [|label values].
    { destruct (columns v); [done|discriminate Hlen]. }
    rewrite (iloc_get_row v _ 0 l (label :: values) Hi).
    cbn [lookup list_lookup mbind outcome_bind].
    rewrite (inner_records _ _ _ _ l (label :: values)) by (simpl in *; done || lia).
    cbn [mbind outcome_bind].
    replace (S (length finished)) with (length (finished ++ [(l, label :: values)]))
      by (rewrite length_app; simpl; lia).
    rewrite IH; [| by rewrite <- (assoc (++)) | done | done].
    cbn [fmap list_fmap mjoin list_join snd records_of_row].
    rewrite <- (assoc (++)). do 3 f_equal.
    destruct (columns v) as [|c0 cs]; [done|].
    simpl in Hlen. cbn [length drop tail].
    replace (S (length cs) - 1) with (length cs) by lia.
    rewrite !drop_0. by rewrite !take_ge by lia.
Qed.

(** X2.  For a frame with at least one column, [store_data] builds one
    record per row and per column after the first, row by row and within a
    row from left to right; the label of a record is the first cell of its
    row, its column name the label of its column.  That makes
    [len(df) * (len(df.columns) - 1)] records, none when the frame has a
    single column.  Building them changes nothing. *)
Theorem X2_records_row_major (st : store) (df : ref) (v : DataFrame)
    (file_name title : string) :
  heap st !! df = Some v →
  rectangular v →
  columns v ≠ [] →
  structured_rows file_name title df st
  = (Ok (mjoin ((λ r : nat * list cell,
                   records_of_row file_name title (columns v) r.2)
                <$> rows v)), st)
  ∧ length (mjoin ((λ r : nat * list cell,
                      records_of_row file_name title (columns v) r.2)
                   <$> rows v))
    = length (rows v) * (length (columns v) - 1).
Proof.
  intros L Hrect Hcols.
  assert (O : owns [] (files st) st df v).
  { repeat split; [apply prefix_nil|simpl; lia|done]. }
  pose proof (structured_rows_refines _ _ _ _ _ file_name title O) as R.
  pose proof (outer_records file_name title v (rows v) [] [] eq_refl Hrect Hcols)
    as Ev.
  unfold Val.structured_rows, range in R. cbn [length app] in Ev.
  rewrite Ev in R.
  destruct R as (a & st' & E & -> & ->). split; [done|].
  clear E O L Ev. unfold rectangular in Hrect. revert Hrect.
  generalize (rows v) as rs. intros rs Hrect.
  induction Hrect as [|[l row] rs Hlen _ IH]; [done|].
  rewrite fmap_cons. cbn [mjoin list_join]. rewrite length_app.
  cbn [length snd] in *.
  transitivity (length (records_of_row file_name title (columns v) row)
                + length rs * (length (columns v) - 1));
    [f_equal; exact IH|].
  destruct row as [|label values].
  { destruct (columns v); [done|discriminate Hlen]. }
  cbn [records_of_row]. rewrite length_fmap, length_zip.
  destruct (columns v); simpl in *; [done|]. lia.
Qed.

Lemma X2_records_row_major_witness :
  structured_rows "q1.html" "Q1 Report" 0
    {| heap := [q1_normalized]; files := [] |}
  = (Ok (mjoin ((λ r : nat * list cell,
                   records_of_row "q1.html" "Q1 Report"
                     (columns q1_normalized) r.2)
                <$> rows q1_normalized)),
     {| heap := [q1_normalized]; files := [] |})
  ∧ length (mjoin ((λ r : nat * list cell,
                      records_of_row "q1.html" "Q1 Report"
                        (columns q1_normalized) r.2)
                   <$> rows q1_normalized))
    = length (rows q1_normalized) * (length (columns q1_normalized) - 1).
Proof.
  apply (X2_records_row_major {| heap := [q1_normalized]; files := [] |} 0
           q1_normalized).
  - reflexivity.
  - repeat constructor.
  - discriminate.
Defined.

(** ** What [store_data] writes *)

Lemma read_write_file_ne fs f g ls :
  g ≠ f → read_file (write_file fs f ls) g = read_file fs g.
Proof.
  intros Hne.
  assert (Hfg : String.eqb f g = false) by (apply String.eqb_neq; congruence).
  induction fs as [|[h old] fs IH]; simpl.
  - by rewrite Hfg.
  - destruct (String.eqb h f) eqn:E; simpl.
    + apply String.eqb_eq in E as ->. by rewrite Hfg.
    + by rewrite IH.
Qed.

(** X3.  [store_data] changes no frame and no file other than
    [output_file]; when it raises, it has written nothing at all. *)
Theorem X3_store_data_writes_one_file (st : store) (file_path : Path)
    (title : string) (df : ref) (output_file : string) (first_run : bool) :
  heap (store_data file_path title df output_file first_run st).2 = heap st
  ∧ (∀ g, g ≠ output_file →
       read_file (files (store_data file_path title df output_file
                           first_run st).2) g
       = read_file (files st) g)
  ∧ (∀ e, (store_data file_path title df output_file first_run st).1 = Raise e →
       (store_data file_path title df output_file first_run st).2 = st).
Proof.
  unfold store_data. rewrite bind_run.
  pose proof (readonly_structured_rows (name file_path) title df st) as Hro.
  destruct (structured_rows (name file_path) title df st) as [[recs|e] st'];
    simpl in Hro; subst st'; simpl.
  - split; [done|]. split; [|done].
    intros g Hg. by apply read_write_file_ne.
  - done.
Qed.

Lemma X3_store_data_writes_one_file_witness :
  heap (store_data q1_path "Q1 Report" 0 "final_result.csv" true
          {| heap := [q1_normalized]; files := [("other.csv", [HeaderLine []])] |}).2
  = [q1_normalized]
  ∧ (∀ g, g ≠ "final_result.csv" →
       read_file (files (store_data q1_path "Q1 Report" 0 "final_result.csv" true
                           {| heap := [q1_normalized];
                              files := [("other.csv", [HeaderLine []])] |}).2) g
       = read_file [("other.csv", [HeaderLine []])] g)
  ∧ (∀ e, (store_data q1_path "Q1 Report" 0 "final_result.csv" true
             {| heap := [q1_normalized];
                files := [("other.csv", [HeaderLine []])] |}).1 = Raise e →
       (store_data q1_path "Q1 Report" 0 "final_result.csv" true
          {| heap := [q1_normalized];
             files := [("other.csv", [HeaderLine []])] |}).2
       = {| heap := [q1_normalized];
            files := [("other.csv", [HeaderLine []])] |}).
Proof.
  exact (X3_store_data_writes_one_file
           {| heap := [q1_normalized]; files := [("other.csv", [HeaderLine []])] |}
           q1_path "Q1 Report" 0 "final_result.csv" true).
Defined.

(** X5.  A frame that has rows but no column has no label cell: [store_data]
    raises [IndexError] at line 89 and leaves the output file as it was. *)
Theorem X5_store_data_without_columns (st : store) (file_path : Path)
    (title : string) (df : ref) (v : DataFrame) (output_file : string)
    (first_run : bool) :
  heap st !! df = Some v →
  rectangular v →
  rows v ≠ [] →
  columns v = [] →
  store_data file_path title df output_file first_run st
  = (Raise IndexError, st).
Proof.
  intros L Hrect Hrows Hcols.
  destruct (rows v) as [|[l row] rs] eqn:Er; [done|].
  assert (row = []) as ->.
  { unfold rectangular in Hrect. rewrite Er in Hrect.
    apply Forall_cons in Hrect as [Hlen _]. rewrite Hcols in Hlen.
    by destruct row. }
  unfold store_data, structured_rows. rewrite !bind_run.
  erewrite reads_run by done. rewrite Er. cbn [lift length range seq for_acc].
  rewrite bind_run. rewrite bind_run. erewrite reads_run by done.
  unfold iloc.get. by rewrite Er.
Qed.

Lemma X5_store_data_without_columns_witness :
  store_data q1_path "T" 0 "final_result.csv" true
    {| heap := [ {| columns := []; rows := [(0, []); (1, [])] |} ];
       files := [] |}
  = (Raise IndexError,
     {| heap := [ {| columns := []; rows := [(0, []); (1, [])] |} ];
        files := [] |}).
Proof.
  apply (X5_store_data_without_columns
           {| heap := [ {| columns := []; rows := [(0, []); (1, [])] |} ];
              files := [] |}
           q1_path "T" 0 {| columns := []; rows := [(0, []); (1, [])] |}).
  - reflexivity.
  - repeat constructor.
  - discriminate.
  - reflexivity.
Defined.

(** ** More on the pass over a row *)

Lemma merge_annotations_row st df v i l row :
  heap st !! df = Some v → rectangular v → rows v !! i = Some (l, row) →
  ∃ st' v',
    merge_annotations df st = (Ok (last (range (length (rows v)))), st')
    ∧ heap st' !! df = Some v'
    ∧ rows v' !! i = Some (l, Val.merge_row row).
Proof.
  intros L Hrect Hi.
  exists (upd st df (Val.merge_annotations v)), (Val.merge_annotations v).
  split; [by apply merge_annotations_run|]. split.
  - simpl. apply list_lookup_insert_eq. by eapply lookup_lt_Some.
  - simpl. by rewrite list_lookup_fmap, Hi.
Qed.

Lemma merge_pair_plain row j c c1 :
  row !! j = Some c → row !! (j + 1) = Some c1 →
  percent_token c1 = false →
  Val.merge_pair row j = <[j := cleared c]> row.
Proof.
  intros Hc Hc1 Hp. unfold Val.merge_pair, cleared, percent_token in *.
  rewrite Hc, Hc1, Hp. cbv zeta. by destruct (cell_is EmptyString c).
Qed.

Lemma merge_fold_right_kept n c js : ∀ row,
  Forall (λ k, k < n) js → percent_token c = false →
  row !! n = Some c → foldl Val.merge_pair row js !! n = Some c.
Proof.
  induction js as [|k js IH]; intros row Hjs Hp Hc; [done|].
  apply Forall_cons in Hjs as [Hk Hjs]. simpl. apply IH; try done.
  destruct (decide (k + 1 = n)) as [<-|].
  - by apply merge_pair_right_kept.
  - by rewrite merge_pair_lookup_ne by lia.
Qed.

Lemma merge_row_plain row j c c1 :
  row !! j = Some c → row !! (j + 1) = Some c1 →
  percent_token c = false → percent_token c1 = false →
  Val.merge_row row !! j = Some (cleared c).
Proof.
  intros Hc Hc1 Hp Hp1.
  assert (Hj : j + 1 < length row) by by eapply lookup_lt_Some.
  unfold Val.merge_row, range.
  replace (length row - 1) with (j + S (length row - 1 - S j)) by lia.
  rewrite seq_app, foldl_app. simpl.
  destruct (merge_fold_before j c c1 (seq 0 j) row) as [Hc' Hc1']; try done.
  { apply Forall_forall. intros k [_ ?]%elem_of_seq. lia. }
  rewrite merge_fold_lookup_ne.
  - rewrite (merge_pair_plain _ j c c1) by done.
    apply list_lookup_insert_eq. rewrite merge_fold_length. lia.
  - apply Forall_forall. intros k [? _]%elem_of_seq. lia.
Qed.

Lemma merge_row_last row n c :
  length row = S n → row !! n = Some c → percent_token c = false →
  Val.merge_row row !! n = Some c.
Proof.
  intros Hlen Hc Hp. unfold Val.merge_row, range. rewrite Hlen.
  apply merge_fold_right_kept; try done.
  apply Forall_forall. intros k [_ ?]%elem_of_seq. lia.
Qed.

Lemma dollar_not_percent c : stripped_is "$" c = true → percent_token c = false.
Proof.
  unfold percent_token, stripped_is. intros ->%String.eqb_eq. done.
Qed.

Lemma dollar_cleared c : stripped_is "$" c = true → cleared c = NaN.
Proof.
  unfold cleared. intros ->. by destruct (cell_is EmptyString c).
Qed.

(** X6.  A cell that reads ["$"] (whitespace apart) and is followed by a
    cell that is not a percent sign is absent after the loops of lines
    146-160, on a frame of any shape, and the cell after it is what the
    loops make of that cell by itself: left as it is in the last column,
    joined with a percent sign that follows it, and else only cleared when
    it is an empty string or a dollar sign in its turn.  So an ordinary
    value after the dollar sign, with no percent sign behind it, is still
    the same value: the dollar sign is dropped, not joined to it. *)
Theorem X6_dollar_sign_dropped (st : store) (df : ref) (v : DataFrame)
    (i l j : nat) (row : list cell) (c c1 : cell) :
  heap st !! df = Some v →
  rectangular v →
  rows v !! i = Some (l, row) →
  row !! j = Some c → stripped_is "$" c = true →
  row !! (j + 1) = Some c1 → percent_token c1 = false →
  ∃ st' v' row',
    merge_annotations df st = (Ok (last (range (length (rows v)))), st')
    ∧ heap st' !! df = Some v'
    ∧ rows v' !! i = Some (l, row')
    ∧ length row' = length row
    ∧ row' !! j = Some NaN
    ∧ row' !! (j + 1)
      = Some (match row !! (j + 2) with
              | None => c1
              | Some c2 =>
                  if percent_token c2
                  then Text (Py.replace "(" "-" (str (cleared c1) +:+ " %"))
                  else cleared c1
              end)
    ∧ (∀ t, c1 = Text t → t ≠ EmptyString → stripped_is "$" c1 = false →
       (∀ c2, row !! (j + 2) = Some c2 → percent_token c2 = false) →
       row' !! (j + 1) = Some (Text t)).
Proof.
  intros L Hrect Hi Hc Hd Hc1 Hp1.
  destruct (merge_annotations_row st df v i l row) as (st' & v' & E & L' & Hi');
    try done.
  assert (Hnext : Val.merge_row row !! (j + 1)
      = Some (match row !! (j + 2) with
              | None => c1
              | Some c2 =>
                  if percent_token c2
                  then Text (Py.replace "(" "-" (str (cleared c1) +:+ " %"))
                  else cleared c1
              end)).
  { replace (j + 2) with (j + 1 + 1) by lia.
    destruct (row !! (j + 1 + 1)) as [c2|] eqn:Hc2.
    - destruct (percent_token c2) eqn:Hp2.
      + by apply (merge_row_percent row (j + 1) c1 c2).
      + by apply (merge_row_plain row (j + 1) c1 c2).
    - apply merge_row_last; try done.
      apply lookup_ge_None in Hc2. apply lookup_lt_Some in Hc1. lia. }
  exists st', v', (Val.merge_row row).
  split; [done|]. split; [done|]. split; [done|].
  split; [apply merge_row_length|]. split; [|split; [done|]].
  - rewrite (merge_row_plain row j c c1); try done.
    + by rewrite dollar_cleared.
    + by apply dollar_not_percent.
  - intros t -> Ht Hd1 Hnp. rewrite Hnext. f_equal.
    assert (Hcl : cleared (Text t) = Text t).
    { unfold cleared. rewrite Hd1.
      destruct (cell_is EmptyString (Text t)) eqn:Eb; [|done].
      exfalso. apply Ht. unfold cell_is in Eb.
      by destruct t. }
    destruct (row !! (j + 2)) as [c2|] eqn:Hc2; [|done].
    by rewrite (Hnp c2 eq_refl).
Qed.

Lemma X6_dollar_sign_dropped_witness :
  ∃ st' v' row',
    merge_annotations 0
      {| heap := [ {| columns := [Pos 0; Pos 1; Pos 2];
                      rows := [(0, [Text "Price"; Text "$"; Text "100"])] |} ];
         files := [] |}
    = (Ok (last (range (length [(0, [Text "Price"; Text "$"; Text "100"])]))),
       st')
    ∧ heap st' !! 0 = Some v'
    ∧ rows v' !! 0 = Some (0, row')
    ∧ length row' = 3
    ∧ row' !! 1 = Some NaN
    ∧ row' !! 2 = Some (Text "100")
    ∧ (∀ t, Text "100" = Text t → t ≠ EmptyString →
       stripped_is "$" (Text "100") = false →
       (∀ c2, [Text "Price"; Text "$"; Text "100"] !! 3 = Some c2 →
              percent_token c2 = false) →
       row' !! 2 = Some (Text t)).
Proof.
  apply (X6_dollar_sign_dropped
           {| heap := [ {| columns := [Pos 0; Pos 1; Pos 2];
                           rows := [(0, [Text "Price"; Text "$"; Text "100"])] |} ];
              files := [] |} 0
           {| columns := [Pos 0; Pos 1; Pos 2];
              rows := [(0, [Text "Price"; Text "$"; Text "100"])] |}
           0 0 1 [Text "Price"; Text "$"; Text "100"] (Text "$") (Text "100")).
  - reflexivity.
  - repeat constructor.
  - reflexivity.
  - reflexivity.
  - reflexivity.
  - reflexivity.
  - reflexivity.
Defined.

(** X8.  The loops of lines 146-160 stop one column short of the end
    (line 147): the last cell of a row is left as it is unless it is a
    percent sign.  A dollar sign in the last column stays. *)
Theorem X8_last_cell_kept (st : store) (df : ref) (v : DataFrame)
    (i l n : nat) (row : list cell) (c : cell) :
  heap st !! df = Some v →
  rectangular v →
  rows v !! i = Some (l, row) →
  length row = S n → row !! n = Some c → percent_token c = false →
  ∃ st' v' row',
    merge_annotations df st = (Ok (last (range (length (rows v)))), st')
    ∧ heap st' !! df = Some v'
    ∧ rows v' !! i = Some (l, row')
    ∧ length row' = S n
    ∧ row' !! n = Some c.
Proof.
  intros L Hrect Hi Hlen Hc Hp.
  destruct (merge_annotations_row st df v i l row) as (st' & v' & E & L' & Hi');
    try done.
  exists st', v', (Val.merge_row row). repeat split; try done.
  - by rewrite merge_row_length.
  - by apply merge_row_last.
Qed.

Lemma X8_last_cell_kept_witness :
  ∃ st' v' row',
    merge_annotations 0
      {| heap := [ {| columns := [Pos 0; Pos 1];
                      rows := [(0, [Text "Price"; Text "$"])] |} ];
         files := [] |}
    = (Ok (last (range (length [(0, [Text "Price"; Text "$"])]))), st')
    ∧ heap st' !! 0 = Some v'
    ∧ rows v' !! 0 = Some (0, row')
    ∧ length row' = 2
    ∧ row' !! 1 = Some (Text "$").
Proof.
  apply (X8_last_cell_kept
           {| heap := [ {| columns := [Pos 0; Pos 1];
                           rows := [(0, [Text "Price"; Text "$"])] |} ];
              files := [] |} 0
           {| columns := [Pos 0; Pos 1];
              rows := [(0, [Text "Price"; Text "$"])] |}
           0 0 1 [Text "Price"; Text "$"] (Text "$")).
  - reflexivity.
  - repeat constructor.
  - reflexivity.
  - reflexivity.
  - reflexivity.
  - reflexivity.
Defined.

Lemma merge_row_unmarked row :
  Forall (λ c, cell_is EmptyString c = false ∧ stripped_is "$" c = false
               ∧ percent_token c = false) row →
  Val.merge_row row = row.
Proof.
  intros Hall. apply list_eq. intros j.
  destruct (row !! j) as [c|] eqn:Hc.
  - destruct (proj1 (Forall_lookup _ _) Hall j c Hc) as (Hb & Hd & Hp).
    destruct (row !! (j + 1)) as [c1|] eqn:Hc1.
    + destruct (proj1 (Forall_lookup _ _) Hall _ c1 Hc1) as (_ & _ & Hp1).
      rewrite (merge_row_plain row j c c1) by done.
      unfold cleared. by rewrite Hb, Hd.
    + apply lookup_ge_None in Hc1. apply lookup_lt_Some in Hc as Hlt.
      apply merge_row_last; try done. lia.
  - apply lookup_ge_None. rewrite merge_row_length. by apply lookup_ge_None.
Qed.

(** X9.  A row in which no cell is an empty string, a dollar sign or a
    percent sign comes out of the loops of lines 146-160 unchanged. *)
Theorem X9_unmarked_row_unchanged (st : store) (df : ref) (v : DataFrame)
    (i l : nat) (row : list cell) :
  heap st !! df = Some v →
  rectangular v →
  rows v !! i = Some (l, row) →
  Forall (λ c, cell_is EmptyString c = false ∧ stripped_is "$" c = false
               ∧ percent_token c = false) row →
  ∃ st' v',
    merge_annotations df st = (Ok (last (range (length (rows v)))), st')
    ∧ heap st' !! df = Some v'
    ∧ rows v' !! i = Some (l, row).
Proof.
  intros L Hrect Hi Hall.
  destruct (merge_annotations_row st df v i l row) as (st' & v' & E & L' & Hi');
    try done.
  exists st', v'. rewrite merge_row_unmarked in Hi' by done. done.
Qed.

Lemma X9_unmarked_row_unchanged_witness :
  ∃ st' v',
    merge_annotations 0
      {| heap := [ {| columns := [Pos 0; Pos 1];
                      rows := [(0, [Text "Revenue"; NaN])] |} ];
         files := [] |}
    = (Ok (last (range (length [(0, [Text "Revenue"; NaN])]))), st')
    ∧ heap st' !! 0 = Some v'
    ∧ rows v' !! 0 = Some (0, [Text "Revenue"; NaN]).
Proof.
  apply (X9_unmarked_row_unchanged
           {| heap := [ {| columns := [Pos 0; Pos 1];
                           rows := [(0, [Text "Revenue"; NaN])] |} ];
              files := [] |} 0
           {| columns := [Pos 0; Pos 1]; rows := [(0, [Text "Revenue"; NaN])] |}
           0 0 [Text "Revenue"; NaN]).
  - reflexivity.
  - repeat constructor.
  - reflexivity.
  - repeat constructor.
Defined.

(** ** What is left after the empty columns are dropped *)

Lemma Forall_select {A} (P : A → Prop) mask : ∀ xs,
  Forall P xs → Forall P (pd.select mask xs).
Proof.
  induction mask as [|b mask IH]; intros [|x xs] H; simpl; try done.
  apply Forall_cons in H as [Hx Hxs]. destruct b; [constructor|]; auto.
Qed.

Lemma select_position {B} mask : ∀ (ys : list B) j y,
  pd.select mask ys !! j = Some y →
  ∃ p, mask !! p = Some true ∧
       ∀ A (xs : list A), length xs = length ys →
         pd.select mask xs !! j = xs !! p.
Proof.
  induction mask as [|b mask IH]; intros [|y0 ys] j y Hj; simpl in *; try done.
  destruct b.
  - destruct j as [|j]; simpl in *.
    + exists 0. split; [done|]. intros A [|x xs] Hlen; simpl in *; done.
    + destruct (IH ys j y Hj) as (p & Hp & Hsel).
      exists (S p). split; [done|].
      intros A [|x xs] Hlen; simpl in *; [done|]. apply Hsel. lia.
  - destruct (IH ys j y Hj) as (p & Hp & Hsel).
    exists (S p). split; [done|].
    intros A [|x xs] Hlen; simpl in *; [done|]. apply Hsel. lia.
Qed.

Lemma existsb_fmap_ext {A B} (f : B → bool) (g : A → bool) (h : A → B) l :
  Forall (λ x, f (h x) = g x) l → existsb f (h <$> l) = existsb g l.
Proof.
  induction 1 as [|x l Hx _ IH]; [done|].
  rewrite fmap_cons. cbn [existsb]. by rewrite Hx, IH.
Qed.

Lemma dropna_columns_all_valued u j :
  rectangular u → j < length (columns (pd.dropna_columns u)) →
  pd.column_has_value (pd.dropna_columns u) j = true.
Proof.
  intros Hrect Hj. unfold pd.dropna_columns in *. cbn [columns rows] in *.
  set (mask := pd.column_has_value u <$> seq 0 (length (columns u))) in *.
  destruct (lookup_lt_is_Some_2 _ _ Hj) as [lbl Hlbl].
  destruct (select_position mask (columns u) j lbl Hlbl) as (p & Hp & Hsel).
  assert (Hval : pd.column_has_value u p = true).
  { unfold mask in Hp. rewrite list_lookup_fmap in Hp.
    destruct (seq 0 (length (columns u)) !! p) as [q|] eqn:Eq; [|done].
    apply lookup_seq in Eq as [-> _]. simpl in Hp. congruence. }
  rewrite <- Hval. unfold pd.column_has_value at 1. cbn [rows].
  unfold pd.column_has_value. apply existsb_fmap_ext.
  eapply Forall_impl; [exact Hrect|]. intros [l row] Hlen. cbn [on_values snd] in *.
  by rewrite (Hsel _ row Hlen).
Qed.

Lemma right_aligned_select mask : ∀ k present,
  Forall (λ c, notna c = true) present →
  right_aligned (pd.select mask (replicate k NaN ++ present)).
Proof.
  induction mask as [|b mask IH]; intros k present Hall.
  - exists 0, []. by destruct (replicate k NaN ++ present).
  - destruct k as [|k].
    + exists 0, (pd.select (b :: mask) present). split; [done|].
      by apply Forall_select.
    + cbn [replicate app pd.select].
      destruct (IH k present Hall) as (k' & present' & Heq & Hall').
      destruct b; [|by exists k', present'].
      exists (S k'), present'. by rewrite Heq.
Qed.

Lemma dropna_tolist_notna row :
  Forall (λ c, notna c = true) (pd.dropna_tolist row).
Proof.
  apply Forall_forall. by intros c [? _]%list_elem_of_filter.
Qed.

Lemma fst_on_values f (rs : list (nat * list cell)) :
  fst <$> (on_values f <$> rs) = fst <$> rs.
Proof. rewrite <- list_fmap_compose. by apply list_fmap_ext. Qed.

Lemma labels_compact v : labels (Val.compact v) = labels v.
Proof.
  unfold labels, Val.compact, pd.dropna_columns, pd.apply_rows.
  destruct (rows v) as [|r rs] eqn:Er; cbn [rows].
  - by rewrite Er.
  - destruct (columns v) eqn:Ec; cbn [rows]; rewrite ?Er;
      by rewrite !fst_on_values.
Qed.

Lemma right_aligned_compact v :
  rectangular v →
  Forall (λ r : nat * list cell, right_aligned r.2) (rows (Val.compact v)).
Proof.
  intros Hrect. unfold Val.compact, pd.dropna_columns, pd.apply_rows.
  destruct (rows v) as [|r rs] eqn:Er; cbn [rows].
  { by rewrite Er. }
  destruct (columns v) as [|x xs] eqn:Ec; cbn [rows columns].
  - rewrite Er. rewrite <- Er. apply Forall_fmap.
    eapply Forall_impl; [exact Hrect|]. intros [l row] Hlen.
    rewrite Ec in Hlen. cbn [snd] in *. destruct row; [|discriminate Hlen].
    cbn. rewrite Ec. by exists 0, [].
  - rewrite <- Er. apply Forall_fmap, Forall_fmap, Forall_forall.
    intros [l row] _. cbn [on_values snd]. unfold shift_right.
    apply right_aligned_select, dropna_tolist_notna.
Qed.

(** X10.  Lines 163-166 never fail.  They leave a new frame with the same
    index labels in which every row has its absent cells first, all of them
    [np.nan], and its values after them, and in which every column holds a
    value in some row; the frame is still rectangular. *)
Theorem X10_compaction_right_aligns (st : store) (df : ref) (v : DataFrame) :
  heap st !! df = Some v →
  rectangular v →
  ∃ df' st' v',
    compact df st = (Ok df', st')
    ∧ heap st' !! df' = Some v'
    ∧ rectangular v'
    ∧ labels v' = labels v
    ∧ Forall (λ r : nat * list cell, right_aligned r.2) (rows v')
    ∧ ∀ j, j < length (columns v') → pd.column_has_value v' j = true.
Proof.
  intros L Hrect.
  assert (O : owns [] (files st) st df v).
  { repeat split; [apply prefix_nil|simpl; lia|done]. }
  destruct (compact_refines _ _ _ _ _ O) as (df' & st' & E & O').
  exists df', st', (Val.compact v). split; [done|].
  split; [by eapply owns_lookup|].
  split; [by apply rectangular_compact|].
  split; [apply labels_compact|].
  split; [by apply right_aligned_compact|].
  intros j Hj. apply dropna_columns_all_valued; [|done].
  apply rectangular_apply_rows; [apply shift_right_length|done].
Qed.

Lemma X10_compaction_right_aligns_witness :
  ∃ df' st' v',
    compact 0 {| heap := [units_compacted]; files := [] |} = (Ok df', st')
    ∧ heap st' !! df' = Some v'
    ∧ rectangular v'
    ∧ labels v' = labels units_compacted
    ∧ Forall (λ r : nat * list cell, right_aligned r.2) (rows v')
    ∧ ∀ j, j < length (columns v') → pd.column_has_value v' j = true.
Proof.
  apply (X10_compaction_right_aligns
           {| heap := [units_compacted]; files := [] |} 0 units_compacted).
  - reflexivity.
  - repeat constructor.
Defined.

(** ** What is left after lines 130-137 *)

Lemma existsb_filter {A} (f : A → bool) (P : A → Prop)
    `{∀ x, Decision (P x)} (l : list A) :
  (∀ x, f x = true → P x) → existsb f (filter P l) = existsb f l.
Proof.
  intros Hf. induction l as [|x l IH]; [done|].
  rewrite filter_cons. destruct (f x) eqn:Ex.
  - rewrite decide_True by auto. simpl. by rewrite Ex.
  - case_decide; simpl; by rewrite ?Ex, IH.
Qed.

Lemma column_has_value_dropna_rows u j :
  pd.column_has_value (pd.dropna_rows u) j = pd.column_has_value u j.
Proof.
  unfold pd.column_has_value, pd.dropna_rows. cbn [rows].
  apply existsb_filter. intros [l row]. cbn [snd].
  destruct (row !! j) as [c|] eqn:Ec; [|done]. intros Hc.
  apply existsb_exists. exists c. split; [|done].
  apply list_elem_of_In. by eapply list_elem_of_lookup_2.
Qed.

Lemma no_blank_drop_empty v :
  Forall (λ r : nat * list cell, Forall (λ c, c ≠ Text EmptyString) r.2)
         (rows (Val.drop_empty v)).
Proof.
  unfold Val.drop_empty, pd.dropna_rows, pd.dropna_columns, pd.replace_blank.
  cbn [rows]. apply Forall_forall. intros r [_ Hr]%list_elem_of_filter.
  revert r Hr. apply Forall_forall, Forall_fmap, Forall_fmap, Forall_forall.
  intros [l row] _. cbn [on_values snd]. apply Forall_select, Forall_fmap.
  apply Forall_forall. intros [t| |] _; simpl; [|done..].
  destruct (String.eqb t EmptyString) eqn:E; [done|].
  apply String.eqb_neq in E. congruence.
Qed.

Lemma labels_drop_empty v : labels (Val.drop_empty v) `sublist_of` labels v.
Proof.
  unfold labels, Val.drop_empty, pd.dropna_rows, pd.dropna_columns,
    pd.replace_blank. cbn [rows].
  etrans; [apply fmap_sublist, sublist_filter|].
  by rewrite !fst_on_values.
Qed.

(** X11.  Lines 130-137 never fail and work on a new frame.  In it no cell
    is an empty string, every row and every column holds at least one
    value, and the rows keep the index labels they had (the index is not
    renumbered); the frame is still rectangular. *)
Theorem X11_drop_empty_invariants (st : store) (df_origin : ref)
    (v : DataFrame) :
  heap st !! df_origin = Some v →
  rectangular v →
  ∃ df st' v',
    drop_empty df_origin st = (Ok df, st')
    ∧ length (heap st) ≤ df
    ∧ heap st' !! df = Some v'
    ∧ rectangular v'
    ∧ Forall (λ r : nat * list cell, Forall (λ c, c ≠ Text EmptyString) r.2)
             (rows v')
    ∧ Forall (λ r : nat * list cell, existsb notna r.2 = true) (rows v')
    ∧ (∀ j, j < length (columns v') → pd.column_has_value v' j = true)
    ∧ labels v' `sublist_of` labels v.
Proof.
  intros L Hrect.
  assert (F : framed (heap st) (files st) st) by done.
  destruct (drop_empty_refines _ _ _ _ _ F L) as (df & st' & E & _ & Hdf & L').
  exists df, st', (Val.drop_empty v). split; [done|].
  split; [done|]. split; [done|].
  split; [by apply rectangular_drop_empty|].
  split; [apply no_blank_drop_empty|].
  split; [|split; [|apply labels_drop_empty]].
  - unfold Val.drop_empty, pd.dropna_rows. cbn [rows].
    apply Forall_forall. by intros r [? _]%list_elem_of_filter.
  - intros j Hj. unfold Val.drop_empty in *.
    rewrite column_has_value_dropna_rows.
    apply dropna_columns_all_valued; [|done].
    by apply rectangular_replace_blank.
Qed.

Lemma X11_drop_empty_invariants_witness :
  ∃ df st' v',
    drop_empty 0 {| heap := [pd.new_DataFrame units_table]; files := [] |}
    = (Ok df, st')
    ∧ length [pd.new_DataFrame units_table] ≤ df
    ∧ heap st' !! df = Some v'
    ∧ rectangular v'
    ∧ Forall (λ r : nat * list cell, Forall (λ c, c ≠ Text EmptyString) r.2)
             (rows v')
    ∧ Forall (λ r : nat * list cell, existsb notna r.2 = true) (rows v')
    ∧ (∀ j, j < length (columns v') → pd.column_has_value v' j = true)
    ∧ labels v' `sublist_of` labels (pd.new_DataFrame units_table).
Proof.
  apply (X11_drop_empty_invariants
           {| heap := [pd.new_DataFrame units_table]; files := [] |} 0
           (pd.new_DataFrame units_table)).
  - reflexivity.
  - repeat constructor.
Defined.

(** ** The single-value-row repair *)

Lemma count_values_fold values : ∀ count non_nan_val,
  foldl (λ '(count, non_nan_val) val,
           if notna val then (count + 1, Some val) else (count, non_nan_val))
        (count, non_nan_val) values
  = (count + length (pd.dropna_tolist values),
     match last (pd.dropna_tolist values) with
     | Some val => Some val
     | None => non_nan_val
     end).
Proof.
  unfold pd.dropna_tolist.
  induction values as [|val values IH]; intros count non_nan_val.
  - simpl. f_equal. lia.
  - cbn [foldl]. rewrite filter_cons. destruct (notna val) eqn:E.
    + rewrite decide_True by done. rewrite IH. cbn [length]. f_equal; [lia|].
      destruct (filter _ values) as [|x xs] eqn:Ef; [done|].
      rewrite last_cons_cons.
      destruct (last (x :: xs)) eqn:El; [done|]. by apply last_None in El.
    + rewrite decide_False by done. by rewrite IH.
Qed.

Lemma count_values_dropna values :
  count_values values
  = (length (pd.dropna_tolist values), last (pd.dropna_tolist values)).
Proof.
  unfold count_values. rewrite count_values_fold. simpl.
  by destruct (last (pd.dropna_tolist values)).
Qed.

Lemma dropna_tolist_all row :
  Forall (λ c, notna c = true) row → pd.dropna_tolist row = row.
Proof.
  unfold pd.dropna_tolist. induction 1 as [|c row Hc _ IH]; [done|].
  by rewrite filter_cons_True, IH.
Qed.

(** X12.  The repair of lines 175-185 is entered exactly when row 0 holds
    one value, whatever its position: with no value or with two or more
    values in row 0, lines 168-185 return the same frame and change
    nothing. *)
Theorem X12_repair_only_for_single_value (st : store) (df : ref)
    (v : DataFrame) (i : option nat) (r0 : nat * list cell) :
  heap st !! df = Some v →
  rows v !! 0 = Some r0 →
  length (pd.dropna_tolist r0.2) ≠ 1 →
  single_value_repair df i st = (Ok df, st).
Proof.
  intros L H0 Hcount. unfold single_value_repair.
  rewrite bind_run. erewrite reads_run by done.
  unfold iloc.row. rewrite H0. cbv beta iota.
  rewrite count_values_dropna.
  by apply Nat.eqb_neq in Hcount as ->.
Qed.

Lemma X12_repair_only_for_single_value_witness :
  single_value_repair 0 (Some 1)
    {| heap := [ {| columns := [Pos 0; Pos 1];
                    rows := [(0, [Text "a"; Text "b"]); (1, [NaN; Text "c"])] |} ];
       files := [] |}
  = (Ok 0,
     {| heap := [ {| columns := [Pos 0; Pos 1];
                     rows := [(0, [Text "a"; Text "b"]); (1, [NaN; Text "c"])] |} ];
        files := [] |}).
Proof.
  apply (X12_repair_only_for_single_value
           {| heap := [ {| columns := [Pos 0; Pos 1];
                           rows := [(0, [Text "a"; Text "b"]);
                                    (1, [NaN; Text "c"])] |} ];
              files := [] |} 0
           {| columns := [Pos 0; Pos 1];
              rows := [(0, [Text "a"; Text "b"]); (1, [NaN; Text "c"])] |}
           (Some 1) (0, [Text "a"; Text "b"])).
  - reflexivity.
  - reflexivity.
  - simpl. lia.
Defined.

(** X13.  When row 0 holds exactly one value the repair can fail: on a
    frame with a single row line 178 raises [IndexError], and when row 1 has
    no absent cell the merged row is one cell longer than the frame is wide
    and the assignment of line 181 raises [ValueError]. *)
Theorem X13_repair_failures (st : store) (df : ref) (v : DataFrame)
    (i : option nat) (r0 : nat * list cell) :
  heap st !! df = Some v →
  rectangular v →
  rows v !! 0 = Some r0 →
  length (pd.dropna_tolist r0.2) = 1 →
  (rows v !! 1 = None →
   single_value_repair df i st = (Raise IndexError, st))
  ∧ (∀ r1, rows v !! 1 = Some r1 → Forall (λ c, notna c = true) r1.2 →
     single_value_repair df i st = (Raise ValueError, st)).
Proof.
  intros L Hrect H0 Hcount.
  destruct (pd.dropna_tolist r0.2) as [|single [|]] eqn:Ed; try done.
  assert (Hstart :
    single_value_repair df i st =
    (second_row_values ← reads df (λ v, pd.dropna_tolist <$> iloc.row v 1);
     let second_row_values := second_row_values ++ [single] in
     shape_1 ← reads df (λ v, Ok (length (columns v)));
     inplace df (λ v, iloc.set_row v 1
       (second_row_values
        ++ replicate (shape_1 - length second_row_values) NaN));;
     i ← lift (local i);
     inplace df (λ v, drop_index v i);;
     inplace df (λ v, Ok (pd.reset_index v));;
     fresh df (λ v, Ok (pd.reset_index (pd.iloc_from_1 v)))) st).
  { unfold single_value_repair.
    rewrite bind_run. erewrite reads_run by done.
    unfold iloc.row at 1. rewrite H0. cbv beta iota.
    rewrite count_values_dropna, Ed. cbn [length last Nat.eqb].
    by rewrite bind_run. }
  rewrite Hstart. clear Hstart. split.
  - intros H1. rewrite bind_run. erewrite reads_run by done.
    unfold iloc.row. by rewrite H1.
  - intros r1 H1 Hfull. rewrite bind_run. erewrite reads_run by done.
    unfold iloc.row at 1. rewrite H1. cbn [fmap outcome_fmap].
    rewrite dropna_tolist_all by done. cbv beta iota zeta.
    rewrite bind_run. erewrite reads_run by done. cbv beta iota.
    rewrite bind_run. erewrite inplace_run by done.
    unfold iloc.set_row. rewrite H1.
    assert (length r1.2 = length (columns v))
      by apply (Forall_lookup_1 _ _ _ _ Hrect H1).
    rewrite decide_False; [done|].
    rewrite !length_app, length_replicate. simpl. lia.
Qed.

Lemma X13_repair_failures_witness :
  (rows {| columns := [Pos 0; Pos 1];
           rows := [(0, [NaN; Text "U"]); (1, [Text "a"; Text "1"])] |} !! 1
   = None →
   single_value_repair 0 (Some 1)
     {| heap := [ {| columns := [Pos 0; Pos 1];
                     rows := [(0, [NaN; Text "U"]); (1, [Text "a"; Text "1"])] |} ];
        files := [] |}
   = (Raise IndexError,
      {| heap := [ {| columns := [Pos 0; Pos 1];
                      rows := [(0, [NaN; Text "U"]); (1, [Text "a"; Text "1"])] |} ];
         files := [] |}))
  ∧ (∀ r1,
       rows {| columns := [Pos 0; Pos 1];
               rows := [(0, [NaN; Text "U"]); (1, [Text "a"; Text "1"])] |} !! 1
       = Some r1 →
       Forall (λ c, notna c = true) r1.2 →
       single_value_repair 0 (Some 1)
         {| heap := [ {| columns := [Pos 0; Pos 1];
                         rows := [(0, [NaN; Text "U"]);
                                  (1, [Text "a"; Text "1"])] |} ];
            files := [] |}
       = (Raise ValueError,
          {| heap := [ {| columns := [Pos 0; Pos 1];
                          rows := [(0, [NaN; Text "U"]);
                                   (1, [Text "a"; Text "1"])] |} ];
             files := [] |})).
Proof.
  apply (X13_repair_failures
           {| heap := [ {| columns := [Pos 0; Pos 1];
                           rows := [(0, [NaN; Text "U"]);
                                    (1, [Text "a"; Text "1"])] |} ];
              files := [] |} 0
           {| columns := [Pos 0; Pos 1];
              rows := [(0, [NaN; Text "U"]); (1, [Text "a"; Text "1"])] |}
           (Some 1) (0, [NaN; Text "U"])).
  - reflexivity.
  - repeat constructor.
  - reflexivity.
  - reflexivity.
Defined.

(** ** The header *)

Lemma capture_header_value v r0 rest :
  rectangular v → rows v = r0 :: rest →
  Val.capture_header v
  = Ok {| columns := Name <$> r0.2;
          rows := imap (λ i (r : nat * list cell), (i, shift_left r.2)) rest |}.
Proof.
  intros Hrect Hrows. unfold Val.capture_header, iloc.row.
  rewrite Hrows. cbn [lookup list_lookup mbind outcome_bind].
  assert (Hall : Forall (λ r : nat * list cell, length r.2 = length (columns v))
                        (r0 :: rest)) by by rewrite <- Hrows.
  apply Forall_cons in Hall as [H0 Hrest].
  unfold set_columns, pd.apply_rows. rewrite Hrows.
  destruct (columns v) as [|x xs] eqn:Ec.
  - rewrite Ec. rewrite decide_True by done.
    cbn [mbind outcome_bind]. unfold pd.reset_index, pd.iloc_from_1.
    cbn [columns rows]. rewrite Hrows. cbn [tail]. do 2 f_equal.
    apply imap_ext. intros k r Hr. cbn.
    apply (Forall_lookup_1 _ _ _ _ Hrest) in Hr. by destruct r.2.
  - cbn [columns]. rewrite decide_True
      by (by rewrite length_fmap, length_seq).
    cbn [mbind outcome_bind]. unfold pd.reset_index, pd.iloc_from_1.
    cbn [columns rows fmap list_fmap tail]. do 2 f_equal.
    by rewrite imap_fmap.
Qed.

(** X14.  Lines 187-193 raise [IndexError] on a frame without rows.
    Otherwise they do not fail: they leave a new frame whose column names
    are the cells of row 0 as they stand (absent cells included, not shifted),
    and whose rows are the rows after row 0, each shifted left, renumbered
    from 0. *)
Theorem X14_header_is_row_0 (st : store) (df : ref) (v : DataFrame) :
  heap st !! df = Some v →
  rectangular v →
  (rows v = [] → (capture_header df st).1 = Raise IndexError)
  ∧ (∀ r0 rest, rows v = r0 :: rest →
     ∃ df' st',
       capture_header df st = (Ok df', st')
       ∧ heap st' !! df'
         = Some {| columns := Name <$> r0.2;
                   rows := imap (λ i (r : nat * list cell),
                                   (i, shift_left r.2)) rest |}).
Proof.
  intros L Hrect.
  assert (O : owns [] (files st) st df v).
  { repeat split; [apply prefix_nil|simpl; lia|done]. }
  pose proof (capture_header_refines _ _ _ _ _ O) as R. split.
  - intros Hrows. unfold Val.capture_header, iloc.row in R.
    rewrite Hrows in R. destruct R as (st' & E & _). by rewrite E.
  - intros r0 rest Hrows.
    rewrite (capture_header_value v r0 rest Hrect Hrows) in R.
    destruct R as (df' & st' & E & O'). exists df', st'.
    split; [done|]. by eapply owns_lookup.
Qed.

Lemma X14_header_is_row_0_witness :
  (rows units_compacted = [] →
   (capture_header 0 {| heap := [units_compacted]; files := [] |}).1
   = Raise IndexError)
  ∧ (∀ r0 rest, rows units_compacted = r0 :: rest →
     ∃ df' st',
       capture_header 0 {| heap := [units_compacted]; files := [] |}
       = (Ok df', st')
       ∧ heap st' !! df'
         = Some {| columns := Name <$> r0.2;
                   rows := imap (λ i (r : nat * list cell),
                                   (i, shift_left r.2)) rest |}).
Proof.
  apply (X14_header_is_row_0 {| heap := [units_compacted]; files := [] |} 0
           units_compacted).
  - reflexivity.
  - repeat constructor.
Defined.

(** ** The exceptions [clean_tables] can raise *)

Lemma iloc_get_raise v i j e : iloc.get v i j = Raise e → e = IndexError.
Proof. unfold iloc.get. repeat case_match; congruence. Qed.

Lemma iloc_row_raise v i e : iloc.row v i = Raise e → e = IndexError.
Proof. unfold iloc.row. case_match; congruence. Qed.

Lemma for_acc_raise {A B} (P : exn → Prop) (body : B → A → outcome B) xs :
  (∀ acc x e, body acc x = Raise e → P e) →
  ∀ acc e, Val.for_acc xs acc body = Raise e → P e.
Proof.
  intros Hbody. induction xs as [|x xs IH]; intros acc e; [done|].
  cbn [Val.for_acc]. destruct (body acc x) as [acc'|e'] eqn:E; simpl.
  - apply IH.
  - intros [= <-]. by eapply Hbody.
Qed.

Lemma structured_rows_raise file_name title v e :
  Val.structured_rows file_name title v = Raise e → e = IndexError.
Proof.
  unfold Val.structured_rows. intros Hraise.
  eapply (for_acc_raise (λ e, e = IndexError)); [|exact Hraise].
  clear e Hraise. intros acc row_idx e. cbv beta.
  destruct (iloc.get v row_idx 0) as [label|e'] eqn:E; simpl.
  - intros Hraise.
    eapply (for_acc_raise (λ e, e = IndexError)); [|exact Hraise].
    clear e Hraise. intros acc' col_idx e. cbv beta.
    destruct (columns v !! col_idx); simpl; [|congruence].
    destruct (iloc.get v row_idx col_idx) eqn:E'; simpl; [done|].
    intros [= <-]. by eapply iloc_get_raise.
  - intros [= <-]. by eapply iloc_get_raise.
Qed.

Lemma labels_set_row u i values u' :
  iloc.set_row u i values = Ok u' → labels u' = labels u.
Proof.
  unfold iloc.set_row, labels. intros E.
  destruct (rows u !! i) as [r|] eqn:Er; [|done].
  case_decide; simplify_eq/=.
  rewrite list_fmap_insert. cbn. apply list_insert_id.
  by rewrite list_lookup_fmap, Er.
Qed.

Lemma single_value_repair_raise u i e :
  Val.single_value_repair u i = Raise e →
  e = IndexError ∨ e = ValueError
  ∨ (rows u ≠ [] ∧
     ((e = UnboundLocalError ∧ i = None)
      ∨ (e = KeyError ∧ ∃ k, i = Some k ∧ k ∉ labels u))).
Proof.
  unfold Val.single_value_repair.
  destruct (iloc.row u 0) as [values|e'] eqn:E0; simpl.
  2:{ intros [= <-]. left. by eapply iloc_row_raise. }
  assert (Hne : rows u ≠ []).
  { unfold iloc.row in E0. by destruct (rows u). }
  rewrite count_values_dropna.
  destruct (length (pd.dropna_tolist values) =? 1) eqn:Ec; [|done].
  apply Nat.eqb_eq in Ec.
  destruct (pd.dropna_tolist values) as [|single [|]]; try done.
  cbn [last local mbind outcome_bind].
  destruct (iloc.row u 1) as [second|e'] eqn:E1; simpl.
  2:{ intros [= <-]. left. by eapply iloc_row_raise. }
  destruct (iloc.set_row u 1 _) as [u1|e'] eqn:Es; simpl.
  2:{ intros [= <-]. unfold iloc.set_row in Es.
      repeat case_match; simplify_eq; auto. }
  destruct i as [k|]; simpl;
    [|intros [= <-]; right; right; split; [done|]; by left].
  unfold drop_index. case_decide as Hk; [done|].
  intros [= <-]. right. right. split; [done|]. right. split; [done|].
  exists k. split; [done|]. by rewrite <- (labels_set_row _ _ _ _ Es).
Qed.

Lemma capture_header_raise u e :
  Val.capture_header u = Raise e → e = IndexError ∨ e = ValueError.
Proof.
  unfold Val.capture_header.
  destruct (iloc.row u 0) as [stored|e'] eqn:E0; simpl.
  2:{ intros [= <-]. left. by eapply iloc_row_raise. }
  unfold set_columns. case_decide; simpl; [done|]. intros [= <-]. by right.
Qed.

Lemma length_rows_labels v : length (rows v) = length (labels v).
Proof. unfold labels. by rewrite length_fmap. Qed.

Lemma labels_merge_annotations v : labels (Val.merge_annotations v) = labels v.
Proof. unfold labels, Val.merge_annotations. cbn [rows]. apply fst_on_values. Qed.

Lemma clean_tables_raise v file_path e :
  Val.clean_tables v file_path = Raise e →
  e = IndexError ∨ e = ValueError
  ∨ (e = KeyError ∧ ∃ title v1,
       Val.extract_title (Val.drop_empty v) = Ok (title, v1)
       ∧ rows v1 ≠ []
       ∧ length (rows v1) - 1 ∉ labels v1).
Proof.
  unfold Val.clean_tables, Val.normalize.
  destruct (Val.extract_title (Val.drop_empty v)) as [[title v1]|e'] eqn:Et;
    simpl.
  2:{ intros [= <-]. left. unfold Val.extract_title in Et.
      destruct (Val.title_extraction _) as [|e''] eqn:E; simplify_eq/=.
      unfold Val.title_extraction in E.
      destruct (iloc.get _ 0 1) eqn:Eg; simplify_eq/=.
      by eapply iloc_get_raise. }
  set (u := Val.compact (Val.merge_annotations v1)).
  assert (Hlab : labels u = labels v1)
    by (unfold u; by rewrite labels_compact, labels_merge_annotations).
  destruct (Val.single_value_repair u _) as [v2|e'] eqn:Er; simpl.
  2:{ intros [= <-].
      apply single_value_repair_raise in Er
        as [->|[->|(Hne & [[-> Hi]|(-> & k & Hi & Hk)])]]; auto.
      - exfalso. apply last_None in Hi. unfold range in Hi.
        apply (f_equal length) in Hi. rewrite length_seq in Hi. simpl in Hi.
        rewrite length_rows_labels, <- Hlab, <- length_rows_labels in Hi.
        by destruct (rows u).
      - right. right. split; [done|]. exists title, v1. split; [done|].
        assert (Hn : length (rows v1) ≠ 0).
        { rewrite length_rows_labels, <- Hlab, <- length_rows_labels.
          by destruct (rows u). }
        split; [by destruct (rows v1)|].
        unfold range in Hi.
        replace (length (rows v1)) with (S (length (rows v1) - 1)) in Hi by lia.
        rewrite seq_S, last_snoc in Hi. simpl in Hi. simplify_eq.
        by rewrite <- Hlab. }
  destruct (Val.capture_header v2) as [v3|e'] eqn:Ec; simpl.
  2:{ intros [= <-]. apply capture_header_raise in Ec as [->| ->]; auto. }
  intros E. left. by eapply structured_rows_raise.
Qed.

(** X15.  On any rectangular frame [clean_tables] either returns or raises
    [IndexError], [ValueError] or [KeyError].  It never fails for another
    reason: line 159 tests a cell that line 156 has just made a string,
    [non_nan_val] is bound whenever [count == 1], and [i] is bound whenever
    line 183 is reached. *)
Theorem X15_only_three_exceptions (st : store) (df_origin : ref)
    (v : DataFrame) (file_path : Path) (first_run : bool) (e : exn) :
  heap st !! df_origin = Some v →
  rectangular v →
  (clean_tables df_origin file_path first_run st).1 = Raise e →
  e = IndexError ∨ e = ValueError ∨ e = KeyError.
Proof.
  intros L Hrect E.
  assert (F : framed (heap st) (files st) st) by done.
  pose proof (clean_tables_refines _ _ _ _ _ file_path first_run F L Hrect) as R.
  destruct (clean_tables df_origin file_path first_run st) as [o st'] eqn:Eo.
  simpl in E. subst o.
  destruct (refines_Raise_inv _ _ _ _ _ _ _ _ R Eo) as [Ev _].
  apply clean_tables_raise in Ev as [->|[->|[-> _]]]; auto.
Qed.

Lemma X15_only_three_exceptions_witness :
  IndexError = IndexError ∨ IndexError = ValueError ∨ IndexError = KeyError.
Proof.
  apply (X15_only_three_exceptions
           {| heap := [pd.new_DataFrame blank_table]; files := [] |} 0
           (pd.new_DataFrame blank_table) q1_path true IndexError).
  - reflexivity.
  - repeat constructor.
  - vm_compute. reflexivity.
Defined.

Lemma labels_reset_index w :
  labels (pd.reset_index w) = seq 0 (length (rows w)).
Proof.
  unfold labels, pd.reset_index. cbn [rows]. apply list_eq. intros k.
  rewrite list_lookup_fmap, list_lookup_imap.
  destruct (rows w !! k) as [r|] eqn:Er; simpl.
  - symmetry. apply lookup_seq. split; [done|]. by eapply lookup_lt_Some.
  - symmetry. apply lookup_ge_None. rewrite length_seq.
    by apply lookup_ge_None.
Qed.

(** X16.  When a title was found and its row removed (line 142 renumbers
    the rows), [clean_tables] does not raise [KeyError]: the row label that
    line 183 drops, the last value of the loop variable [i], is then the
    label of the last row. *)
Theorem X16_no_KeyError_with_title (st : store) (df_origin : ref)
    (v : DataFrame) (file_path : Path) (first_run : bool)
    (title : string) (df : ref) (st1 : store) :
  heap st !! df_origin = Some v →
  rectangular v →
  (df ← drop_empty df_origin; extract_title df) st = (Ok (title, df), st1) →
  title ≠ "No Title" →
  (clean_tables df_origin file_path first_run st).1 ≠ Raise KeyError.
Proof.
  intros L Hrect E Htitle Hraise.
  assert (F : framed (heap st) (files st) st) by done.
  assert (R : refines (heap st) (files st)
                (df ← drop_empty df_origin; extract_title df)
                (Val.extract_title (Val.drop_empty v))
                (λ a b st', a.1 = b.1 ∧ owns (heap st) (files st) st' a.2 b.2)
                st).
  { eapply refines_bind_ok; [by apply drop_empty_refines|].
    intros a st' O. by apply extract_title_refines. }
  destruct (refines_Ok_inv _ _ _ _ _ _ _ _ R E) as ([t v1] & Ev & Ht & _).
  simpl in Ht. subst t.
  pose proof (clean_tables_refines _ _ _ _ _ file_path first_run F L Hrect) as R'.
  destruct (clean_tables df_origin file_path first_run st) as [o st'] eqn:Eo.
  simpl in Hraise. subst o.
  destruct (refines_Raise_inv _ _ _ _ _ _ _ _ R' Eo) as [Ev' _].
  apply clean_tables_raise in Ev' as [?|[?|(_ & t' & v1' & Ev'' & Hne & Hk)]];
    try done.
  rewrite Ev in Ev''. simplify_eq.
  unfold Val.extract_title in Ev.
  destruct (Val.title_extraction _) as [t|]; simplify_eq/=.
  rewrite bool_decide_true in Hk, Hne by done.
  rewrite labels_reset_index in Hk. apply Hk.
  apply elem_of_seq. cbn [pd.reset_index rows] in *.
  rewrite length_imap in *.
  destruct (rows (pd.iloc_from_1 (Val.drop_empty v))); [done|]. simpl. lia.
Qed.

Lemma X16_no_KeyError_with_title_witness :
  (clean_tables 0 q1_path true
     {| heap := [pd.new_DataFrame units_table]; files := [] |}).1
  ≠ Raise KeyError.
Proof.
  apply (X16_no_KeyError_with_title
           {| heap := [pd.new_DataFrame units_table]; files := [] |} 0
           (pd.new_DataFrame units_table) q1_path true "T" 3
           ((df ← drop_empty 0; extract_title df)
              {| heap := [pd.new_DataFrame units_table]; files := [] |}).2).
  - reflexivity.
  - repeat constructor.
  - vm_compute. reflexivity.
  - discriminate.
Defined.

(** ** The output of a run *)

Lemma records_of_fmap recs : records_of (RecordLine <$> recs) = recs.
Proof.
  unfold records_of. induction recs as [|r recs IH]; [done|].
  cbn. by rewrite IH.
Qed.

Lemma solo_records_value st r file_path v :
  heap st !! r = Some v → rectangular v →
  (clean_tables r file_path false {| heap := heap st; files := [] |}).1 = Ok tt →
  Val.clean_tables v file_path = Ok (solo_records st (r, file_path)).
Proof.
  intros L Hrect E. unfold solo_records. cbn [fst snd].
  assert (F : framed (heap st) [] {| heap := heap st; files := [] |}) by done.
  pose proof (clean_tables_refines _ _ _ _ _ file_path false F L Hrect) as R.
  destruct (clean_tables r file_path false _) as [o st'] eqn:Eo.
  simpl in E. subst o.
  destruct (refines_Ok_inv _ _ _ _ _ _ _ _ R Eo) as (recs & Ev & _ & Hf).
  cbn [snd]. rewrite Hf, read_write_file. cbn [read_file to_csv app].
  by rewrite records_of_fmap.
Qed.

Lemma clean_tables_step st1 r file_path v recs first_run :
  heap st1 !! r = Some v → rectangular v →
  Val.clean_tables v file_path = Ok recs →
  ∃ st2,
    clean_tables r file_path first_run st1 = (Ok tt, st2)
    ∧ heap st1 `prefix_of` heap st2
    ∧ read_file (files st2) "final_result.csv"
      = to_csv recs (if first_run then mode_w else mode_a) first_run
               (read_file (files st1) "final_result.csv").
Proof.
  intros L Hrect Ev.
  assert (F : framed (heap st1) (files st1) st1) by done.
  pose proof (clean_tables_refines _ _ _ _ _ file_path first_run F L Hrect) as R.
  rewrite Ev in R. destruct R as ([] & st2 & E & Hp & Hf).
  exists st2. split; [done|]. split; [done|]. by rewrite Hf, read_write_file.
Qed.

Lemma cleaning_loop_appends st (tables : list (ref * Path)) : ∀ st1,
  heap st `prefix_of` heap st1 →
  Forall (λ t : ref * Path, ∃ v,
            heap st !! t.1 = Some v ∧ rectangular v
            ∧ Val.clean_tables v t.2 = Ok (solo_records st t)) tables →
  ∃ st2,
    cleaning_loop clean_tables false tables st1 = (Ok tt, st2)
    ∧ heap st `prefix_of` heap st2
    ∧ read_file (files st2) "final_result.csv"
      = read_file (files st1) "final_result.csv"
        ++ (RecordLine <$> mjoin (solo_records st <$> tables)).
Proof.
  induction tables as [|[r p] tables IH]; intros st1 Hp Hall.
  - exists st1. by rewrite app_nil_r.
  - apply Forall_cons in Hall as [(v & L & Hrect & Ev) Hall].
    cbn [fst snd] in L, Ev.
    destruct (clean_tables_step st1 r p v (solo_records st (r, p)) false)
      as (st2 & E & Hp2 & Hf2);
      [by eapply prefix_lookup_Some|done|exact Ev|].
    destruct (IH st2) as (st3 & E3 & Hp3 & Hf3); [by etrans|done|].
    exists st3. cbn [cleaning_loop fst snd]. rewrite bind_run, E.
    split; [done|]. split; [done|].
    rewrite Hf3, Hf2. cbn [to_csv app fmap_cons].
    rewrite fmap_cons. cbn [mjoin list_join]. rewrite fmap_app.
    by rewrite <- (assoc (++)).
Qed.

(** X17.  If every table of [all_tables] is cleaned without an exception
    when taken alone, the loop of lines 214-219 ends normally, changes none
    of the frames it was given, and leaves in [final_result.csv] one header
    line, that of the first table, followed by the records of all the
    tables in their order, each table giving what it gives alone.  The
    header line names the five columns when the first table gives a record,
    and is empty when it gives none.  Without tables the file is not
    touched. *)
Theorem X17_run_concatenates_tables (st : store)
    (all_tables : list (ref * Path)) :
  Forall (λ t : ref * Path, ∃ v,
            heap st !! t.1 = Some v ∧ rectangular v
            ∧ (clean_tables t.1 t.2 false
                 {| heap := heap st; files := [] |}).1 = Ok tt) all_tables →
  ∃ st',
    cleaning_loop clean_tables true all_tables st = (Ok tt, st')
    ∧ heap st `prefix_of` heap st'
    ∧ read_file (files st') "final_result.csv"
      = match all_tables with
        | [] => read_file (files st) "final_result.csv"
        | first :: _ =>
            HeaderLine
              (match solo_records st first with
               | [] => []
               | _ :: _ =>
                   ["filename"; "label"; "tablename"; "column name"; "value"]
               end)
            :: (RecordLine <$> mjoin (solo_records st <$> all_tables))
        end.
Proof.
  intros Hall.
  assert (Hall' : Forall (λ t : ref * Path, ∃ v,
            heap st !! t.1 = Some v ∧ rectangular v
            ∧ Val.clean_tables v t.2 = Ok (solo_records st t)) all_tables).
  { eapply Forall_impl; [exact Hall|]. intros [r p] (v & L & Hrect & E).
    exists v. split; [done|]. split; [done|]. by apply solo_records_value. }
  clear Hall. destruct all_tables as [|[r p] rest].
  - by exists st.
  - apply Forall_cons in Hall' as [(v & L & Hrect & Ev) Hrest].
    cbn [fst snd] in L, Ev.
    destruct (clean_tables_step st r p v (solo_records st (r, p)) true
                L Hrect Ev) as (st2 & E & Hp2 & Hf2).
    destruct (cleaning_loop_appends st rest st2 Hp2 Hrest)
      as (st3 & E3 & Hp3 & Hf3).
    exists st3. cbn [cleaning_loop fst snd]. rewrite bind_run, E.
    split; [done|]. split; [done|].
    rewrite Hf3, Hf2. cbn [to_csv app].
    rewrite fmap_cons. cbn [mjoin list_join]. by rewrite fmap_app.
Qed.

Lemma X17_run_concatenates_tables_witness :
  ∃ st',
    cleaning_loop clean_tables true [(0, q1_path); (1, q1_path)]
      {| heap := [pd.new_DataFrame q1_report; pd.new_DataFrame decline_table];
         files := [] |} = (Ok tt, st')
    ∧ [pd.new_DataFrame q1_report; pd.new_DataFrame decline_table]
      `prefix_of` heap st'
    ∧ read_file (files st') "final_result.csv"
      = HeaderLine
          (match solo_records
                   {| heap := [pd.new_DataFrame q1_report;
                               pd.new_DataFrame decline_table];
                      files := [] |} (0, q1_path)
           with
           | [] => []
           | _ :: _ =>
               ["filename"; "label"; "tablename"; "column name"; "value"]
           end)
        :: (RecordLine <$>
            mjoin (solo_records
                     {| heap := [pd.new_DataFrame q1_report;
                                 pd.new_DataFrame decline_table];
                        files := [] |}
                   <$> [(0, q1_path); (1, q1_path)])).
Proof.
  apply (X17_run_concatenates_tables
           {| heap := [pd.new_DataFrame q1_report; pd.new_DataFrame decline_table];
              files := [] |} [(0, q1_path); (1, q1_path)]).
  repeat constructor.
  - exists (pd.new_DataFrame q1_report).
    split; [reflexivity|]. split; [repeat constructor|].
    vm_compute. reflexivity.
  - exists (pd.new_DataFrame decline_table).
    split; [reflexivity|]. split; [repeat constructor|].
    vm_compute. reflexivity.
Defined.
